(** * AWS InfraSec MCP server: rule evaluation and exposure analysis

    A shallow embedding of the analysis core of the server
    (src/config/constants.ts, src/config/rules-loader.ts,
    src/analyzers/security-group-analyzer.ts,
    src/analyzers/public-instance-analyzer.ts and
    src/tools/security-groups.ts) together with the properties the
    specification states about it.

    Conventions of the embedding:
    - a JavaScript [number] that holds a port is an integer of [Z];
    - a JavaScript string is a [string]; [a === b] on strings is
      [bool_decide (a = b)];
    - an optional property [p?: T] is a field of type [option T], where
      [None] is [undefined]; [x ?? d] is [default d x];
    - an array is a [list]; [push] appends at the end;
    - a [Set<string>] is a [gset string];
    - [await ec2Client.send(...)] runs in the monad [Async], which threads
      the state of the remote service and may throw. *)

From stdpp Require Import base strings list gmap sorting pretty.
From Stdlib Require Import ZArith Lia.

#[local] Set Warnings "-clear-no-such-hyp,-register-all".

Local Open Scope string_scope.
Local Open Scope list_scope.
Local Open Scope Z_scope.

(** ** JavaScript preliminaries *)

(** A string used as a condition: [undefined] and [''] are falsy. *)
Definition truthy (s : option string) : bool :=
  match s with
  | Some v => negb (bool_decide (v = ""))
  | None => false
  end.

(** [Array.prototype.includes] on an array of numbers. *)
Definition includes (l : list Z) (x : Z) : bool :=
  existsb (fun y => bool_decide (y = x)) l.

(** Template-literal interpolation [`${n}`] of an integer. *)
Definition numToString (n : Z) : string := pretty n.

(** [Array.prototype.sort(compareFn)]: the stable sort that places [a]
    before [b] whenever [compareFn a b <= 0].  Every conforming engine
    returns this list when [compareFn] is a consistent comparator; it is
    computed here by insertion. *)
Fixpoint sort_insert (compareFn : Z → Z → Z) (a : Z) (l : list Z) : list Z :=
  match l with
  | [] => [a]
  | b :: l' =>
      if compareFn a b <=? 0 then a :: b :: l'
      else b :: sort_insert compareFn a l'
  end.

Definition sort (compareFn : Z → Z → Z) (l : list Z) : list Z :=
  foldr (sort_insert compareFn) [] l.

(** [Array.prototype.join] on an array of strings. *)
Fixpoint join (sep : string) (l : list string) : string :=
  match l with
  | [] => ""
  | [s] => s
  | s :: l' => s +:+ sep +:+ join sep l'
  end.

(** ** src/config/constants.ts *)

Definition DANGEROUS_PORTS : list Z :=
  [22; 3389; 3306; 5432; 1433; 6379; 27017; 5984].

Definition PORT_RANGE_THRESHOLD : Z := 100.
Definition EXPOSED_PORTS_MEDIUM_THRESHOLD : nat := 5.

(** ** src/types/index.ts *)

Inductive Severity := HIGH | MEDIUM | LOW.

Global Instance Severity_eq_dec : EqDecision Severity.
Proof. solve_decision. Defined.

Module SecurityRule.
Record t := mk {
  id : string;
  name : string;
  description : string;
  severity : Severity;
  port : option Z;
  protocol : option string;
  source : option string;
  recommendation : string
}.
End SecurityRule.

(** [port: number | string] of an affected rule. *)
Inductive PortLabel :=
| PortNumber (n : Z)
| PortString (s : string).

Record AffectedRule := {
  affectedPort : PortLabel;
  affectedProtocol : string;
  affectedSource : string
}.

Module SecurityFinding.
Record t := mk {
  securityGroupId : string;
  securityGroupName : string;
  ruleId : string;
  severity : Severity;
  description : string;
  recommendation : string;
  affectedRule : option AffectedRule
}.
End SecurityFinding.

Record SecurityGroupSummary := {
  totalGroups : nat;
  highRiskFindings : nat;
  mediumRiskFindings : nat;
  lowRiskFindings : nat
}.

Module SecurityGroupAnalysisResult.
Record t := mk {
  summary : SecurityGroupSummary;
  findings : list SecurityFinding.t
}.
End SecurityGroupAnalysisResult.

Record PublicInstanceInfo := {
  instanceId : string;
  publicIp : string;
  securityGroups : list string;
  exposedPorts : list Z;
  riskLevel : Severity;
  recommendations : list string
}.

Record PublicInstanceSummary := {
  totalInstances : nat;
  publicInstances : nat;
  totalExposedPorts : nat
}.

Module PublicInstanceAnalysisResult.
Record t := mk {
  summary : PublicInstanceSummary;
  instances : list PublicInstanceInfo
}.
End PublicInstanceAnalysisResult.

(** ** The EC2 records read by the analyzers (@aws-sdk/client-ec2);
       every property is optional in the SDK's types. *)

Record IpRange := { CidrIp : option string }.
Record Ipv6Range := { CidrIpv6 : option string }.

Record IpPermission := {
  FromPort : option Z;
  ToPort : option Z;
  IpProtocol : option string;
  IpRanges : option (list IpRange);
  Ipv6Ranges : option (list Ipv6Range)
}.

Module SecurityGroup.
Record t := mk {
  GroupId : option string;
  GroupName : option string;
  IpPermissions : option (list IpPermission)
}.
End SecurityGroup.

Module GroupIdentifier.
Record t := mk { GroupId : option string }.
End GroupIdentifier.

Record InstanceState := { Name : option string }.

Module Instance.
Record t := mk {
  InstanceId : option string;
  PublicIpAddress : option string;
  State : option InstanceState;
  SecurityGroups : option (list GroupIdentifier.t)
}.
End Instance.

Record Reservation := { Instances : option (list Instance.t) }.

Record DescribeInstancesResult := {
  Reservations : option (list Reservation)
}.

Record DescribeSecurityGroupsResult := {
  SecurityGroups : option (list SecurityGroup.t)
}.

(** ** Asynchronous calls

    The analyzers await the EC2 client; the awaits of one analysis run one
    after the other.  A computation takes the state [W] of the remote
    service (which answer comes next), returns or throws, and leaves a new
    state. *)

(** What a [catch] clause can tell about the value it receives:
    [error instanceof Error] with its [message]; [error instanceof
    z.ZodError] (an [Error] too) with the messages of its issues; or
    anything else. *)
Inductive Thrown :=
| Error (message : string)
| ZodError (issues : list string) (message : string)
| NotAnError.

Inductive Outcome (A : Type) :=
| Returns (a : A)
| Throws (e : Thrown).
Global Arguments Returns {A} a.
Global Arguments Throws {A} e.

Definition Async (W A : Type) : Type := W → Outcome A * W.

Global Instance Async_ret {W} : MRet (Async W) :=
  λ A a w, (Returns a, w).

Global Instance Async_bind {W} : MBind (Async W) :=
  λ A B k c w,
    match c w with
    | (Returns a, w') => k a w'
    | (Throws e, w') => (Throws e, w')
    end.

Definition throw {W A} (e : Thrown) : Async W A :=
  λ w, (Throws e, w).

(** [try { body } catch (error) { handler(error) }] *)
Definition try_catch {W A} (body : Async W A) (handler : Thrown → Async W A)
  : Async W A :=
  λ w,
    match body w with
    | (Returns a, w') => (Returns a, w')
    | (Throws e, w') => handler e w'
    end.

(** [for (const x of l) { acc = await step(acc, x) }] *)
Fixpoint for_of {W A B} (step : B → A → Async W B) (l : list A) (acc : B)
  : Async W B :=
  match l with
  | [] => mret acc
  | x :: l' => acc' ← step acc x; for_of step l' acc'
  end.

(** [error instanceof Error ? error.message : 'Unknown error'] *)
Definition messageOf (error : Thrown) : string :=
  match error with
  | Error message => message
  | ZodError _ message => message
  | NotAnError => "Unknown error"
  end.

(** The two commands the analyzers send:
    [send(new DescribeSecurityGroupsCommand({ GroupIds }))] and
    [send(new DescribeInstancesCommand({}))]. *)
Record EC2Client (W : Type) := {
  describeSecurityGroups : option (list string) → Async W DescribeSecurityGroupsResult;
  describeInstances : Async W DescribeInstancesResult
}.
Global Arguments describeSecurityGroups {W} _ _ _.
Global Arguments describeInstances {W} _ _.

(** ** Untyped values

    What [JSON.parse] returns and what a tool receives as [input: unknown].
    An object is the list of its own properties, each key once. *)

Inductive JsValue :=
| JsUndefined
| JsNull
| JsBoolean (b : bool)
| JsNumber (n : Z)
| JsString (s : string)
| JsArray (items : list JsValue)
| JsObject (properties : list (string * JsValue)).

(** A value used as a condition. *)
Definition jsTruthy (v : JsValue) : bool :=
  match v with
  | JsUndefined | JsNull => false
  | JsBoolean b => b
  | JsNumber n => negb (n =? 0)
  | JsString s => negb (bool_decide (s = ""))
  | JsArray _ | JsObject _ => true
  end.

(** [object[key]] on the property list of an object. *)
Fixpoint getProperty (key : string) (properties : list (string * JsValue))
  : JsValue :=
  match properties with
  | [] => JsUndefined
  | (k, v) :: properties' =>
      if bool_decide (k = key) then v else getProperty key properties'
  end.

(** ** src/config/rules-loader.ts: the pure lookups *)

Definition getRuleById (rules : list SecurityRule.t) (ruleId : string)
  : option SecurityRule.t :=
  List.find (fun rule => bool_decide (SecurityRule.id rule = ruleId)) rules.

Definition getRulesByPort (rules : list SecurityRule.t) (port : Z)
  : list SecurityRule.t :=
  List.filter (fun rule => bool_decide (SecurityRule.port rule = Some port)) rules.

Definition getRulesBySeverity (rules : list SecurityRule.t) (severity : Severity)
  : list SecurityRule.t :=
  List.filter (fun rule => bool_decide (SecurityRule.severity rule = severity)) rules.

(** ** src/config/rules-loader.ts: loading the catalog *)

Module RulesLoader.

(** The module-level [cachedRules] (initially [null]) and what has been
    written with [console.error]. *)
Record State := {
  cachedRules : JsValue;
  consoleErrors : list string
}.

Definition initial : State :=
  {| cachedRules := JsNull; consoleErrors := [] |}.

Definition console_error (line : string) : Async State () :=
  λ st, (Returns (),
         {| cachedRules := cachedRules st;
            consoleErrors := consoleErrors st ++ [line] |}).

Definition setCachedRules (v : JsValue) : Async State () :=
  λ st, (Returns (),
         {| cachedRules := v; consoleErrors := consoleErrors st |}).

(** [rulesConfig.rules]: a [TypeError] on [null] (and [undefined]), the
    property of an object, [undefined] on any other value. *)
Definition get_rules {W} (rulesConfig : JsValue) : Async W JsValue :=
  match rulesConfig with
  | JsUndefined | JsNull =>
      throw (Error "Cannot read properties of null (reading 'rules')")
  | JsObject properties => mret (getProperty "rules" properties)
  | _ => mret JsUndefined
  end.

Section Load.

(** The file system ([fs.existsSync], [fs.readFileSync(path, 'utf8')]),
    [JSON.parse] and the location of the shipped catalog. *)
Variable existsSync : string → bool.
Variable readFileSync : string → Outcome string.
Variable JSON_parse : string → Outcome JsValue.
Variable DEFAULT_RULES_PATH : string.

Definition lift {A} (o : Outcome A) : Async State A := λ st, (o, st).

Definition loadSecurityRules (customPath : option string)
  : Async State JsValue :=
  λ st,
    if jsTruthy (cachedRules st) && negb (truthy customPath) then
      (Returns (cachedRules st), st)
    else
      let rulePath := default DEFAULT_RULES_PATH customPath in
      try_catch
        (if negb (existsSync rulePath) then
           _ ← console_error ("Security rules file not found: " +:+ rulePath);
           mret (JsArray [])
         else
           rulesData ← lift (readFileSync rulePath);
           rulesConfig ← lift (JSON_parse rulesData);
           _ ← (if negb (truthy customPath) then
                  rules ← get_rules rulesConfig; setCachedRules rules
                else mret ());
           get_rules rulesConfig)
        (λ error,
           _ ← console_error
                 ("Failed to load security rules from: " +:+ rulePath);
           mret (JsArray []))
        st.

Definition clearRulesCache : Async State () := setCachedRules JsNull.

End Load.

End RulesLoader.

(** ** Public exposure of a permission, as each analyzer computes it *)

(** [permission.IpRanges?.some(range => range.CidrIp === '0.0.0.0/0') ?? false] *)
Definition ipv4Public (permission : IpPermission) : bool :=
  match IpRanges permission with
  | Some ranges =>
      existsb (fun range => bool_decide (CidrIp range = Some "0.0.0.0/0")) ranges
  | None => false
  end.

(** [permission.Ipv6Ranges?.some(range => range.CidrIpv6 === '::/0') ?? false] *)
Definition ipv6Public (permission : IpPermission) : bool :=
  match Ipv6Ranges permission with
  | Some ranges =>
      existsb (fun range => bool_decide (CidrIpv6 range = Some "::/0")) ranges
  | None => false
  end.

(** ** src/analyzers/security-group-analyzer.ts *)

Module SecurityGroupAnalyzer.

Section PermissionChecks.

(** [this.rules] *)
Variable rules : list SecurityRule.t.

(** The filter callback of [checkDangerousPorts]. *)
Definition isDangerousRule (protocol : string) (rule : SecurityRule.t) : bool :=
  bool_decide (SecurityRule.port rule ≠ None)
  && bool_decide (SecurityRule.source rule = Some "0.0.0.0/0")
  && bool_decide (SecurityRule.protocol rule = Some protocol).

(** The body of the [for (const rule of dangerousRules)] loop. *)
Definition dangerousPortStep (permission : IpPermission) (sgId sgName : string)
    (protocol publicSource : string)
    (findings : list SecurityFinding.t) (rule : SecurityRule.t)
  : list SecurityFinding.t :=
  match FromPort permission, ToPort permission, SecurityRule.port rule with
  | Some fromPort, Some toPort, Some rulePort =>
      if (fromPort <=? rulePort) && (rulePort <=? toPort) then
        findings ++ [ {|
          SecurityFinding.securityGroupId := sgId;
          SecurityFinding.securityGroupName := sgName;
          SecurityFinding.ruleId := SecurityRule.id rule;
          SecurityFinding.severity := SecurityRule.severity rule;
          SecurityFinding.description := SecurityRule.description rule;
          SecurityFinding.recommendation := SecurityRule.recommendation rule;
          SecurityFinding.affectedRule := Some {|
            affectedPort := PortNumber rulePort;
            affectedProtocol := protocol;
            affectedSource := publicSource |}
        |} ]
      else findings
  | _, _, _ => findings
  end.

Definition checkDangerousPorts (permission : IpPermission) (sgId sgName : string)
  : list SecurityFinding.t :=
  let protocol := default "unknown" (IpProtocol permission) in
  let ipv4Public := ipv4Public permission in
  let ipv6Public := ipv6Public permission in
  if negb ipv4Public && negb ipv6Public then []
  else
    let publicSource := if ipv4Public then "0.0.0.0/0" else "::/0" in
    let dangerousRules := List.filter (isDangerousRule protocol) rules in
    foldl (dangerousPortStep permission sgId sgName protocol publicSource)
          [] dangerousRules.

(** [permission.IpRanges?.[0]?.CidrIp] *)
Definition ipv4Source (permission : IpPermission) : option string :=
  match IpRanges permission with
  | Some (range :: _) => CidrIp range
  | _ => None
  end.

(** [permission.Ipv6Ranges?.[0]?.CidrIpv6] *)
Definition ipv6Source (permission : IpPermission) : option string :=
  match Ipv6Ranges permission with
  | Some (range :: _) => CidrIpv6 range
  | _ => None
  end.

(** [`${fromPort}-${toPort}`] *)
Definition portSpan (fromPort toPort : Z) : string :=
  numToString fromPort +:+ "-" +:+ numToString toPort.

Definition checkWidePortRanges (permission : IpPermission) (sgId sgName : string)
  : list SecurityFinding.t :=
  match FromPort permission, ToPort permission with
  | Some fromPort, Some toPort =>
      let portRange := toPort - fromPort in
      if PORT_RANGE_THRESHOLD <? portRange then
        match getRuleById rules "sg-wide-port-range" with
        | Some wideRangeRule =>
            let source :=
              match ipv4Source permission with
              | Some s => s
              | None => default "unknown" (ipv6Source permission)
              end in
            [ {|
              SecurityFinding.securityGroupId := sgId;
              SecurityFinding.securityGroupName := sgName;
              SecurityFinding.ruleId := SecurityRule.id wideRangeRule;
              SecurityFinding.severity := SecurityRule.severity wideRangeRule;
              SecurityFinding.description :=
                SecurityRule.description wideRangeRule
                +:+ " (" +:+ portSpan fromPort toPort +:+ ")";
              SecurityFinding.recommendation :=
                SecurityRule.recommendation wideRangeRule;
              SecurityFinding.affectedRule := Some {|
                affectedPort := PortString (portSpan fromPort toPort);
                affectedProtocol := default "unknown" (IpProtocol permission);
                affectedSource := source |}
            |} ]
        | None => []
        end
      else []
  | _, _ => []
  end.

Definition checkAllTrafficRules (permission : IpPermission) (sgId sgName : string)
  : list SecurityFinding.t :=
  if bool_decide (IpProtocol permission = Some "-1") then
    let ipv4Public := ipv4Public permission in
    let ipv6Public := ipv6Public permission in
    if ipv4Public || ipv6Public then
      match getRuleById rules "sg-all-traffic" with
      | Some allTrafficRule =>
          [ {|
            SecurityFinding.securityGroupId := sgId;
            SecurityFinding.securityGroupName := sgName;
            SecurityFinding.ruleId := SecurityRule.id allTrafficRule;
            SecurityFinding.severity := SecurityRule.severity allTrafficRule;
            SecurityFinding.description := SecurityRule.description allTrafficRule;
            SecurityFinding.recommendation :=
              SecurityRule.recommendation allTrafficRule;
            SecurityFinding.affectedRule := Some {|
              affectedPort := PortString "all";
              affectedProtocol := "all";
              affectedSource := if ipv4Public then "0.0.0.0/0" else "::/0" |}
          |} ]
      | None => []
      end
    else []
  else [].

(** The three pushes made for one permission by [analyzeSecurityGroup]. *)
Definition analyzePermission (sgId sgName : string)
    (findings : list SecurityFinding.t) (permission : IpPermission)
  : list SecurityFinding.t :=
  ((findings ++ checkDangerousPorts permission sgId sgName)
     ++ checkWidePortRanges permission sgId sgName)
    ++ checkAllTrafficRules permission sgId sgName.

Definition analyzeSecurityGroup (sg : SecurityGroup.t) : list SecurityFinding.t :=
  let sgId := default "unknown" (SecurityGroup.GroupId sg) in
  let sgName := default "unknown" (SecurityGroup.GroupName sg) in
  match SecurityGroup.IpPermissions sg with
  | None => []
  | Some permissions => foldl (analyzePermission sgId sgName) [] permissions
  end.

End PermissionChecks.

(** The set filled by the three nested loops of
    [findUnusedSecurityGroups]. *)
Definition usedSecurityGroupsOf (instancesResponse : DescribeInstancesResult)
  : gset string :=
  foldl (λ used reservation,
    foldl (λ used instance,
      foldl (λ (used : gset string) sg,
               match GroupIdentifier.GroupId sg with
               | Some groupId =>
                   if truthy (Some groupId) then used ∪ {[ groupId ]} else used
               | None => used
               end)
            used (default [] (Instance.SecurityGroups instance)))
      used (default [] (Instances reservation)))
    ∅ (default [] (Reservations instancesResponse)).

(** The body of the [for (const sg of securityGroups)] loop of
    [findUnusedSecurityGroups]. *)
Definition unusedStep (usedSecurityGroups : gset string)
    (unusedRule : SecurityRule.t)
    (findings : list SecurityFinding.t) (sg : SecurityGroup.t)
  : list SecurityFinding.t :=
  match SecurityGroup.GroupId sg with
  | Some groupId =>
      if truthy (Some groupId)
         && negb (bool_decide (groupId ∈ usedSecurityGroups))
         && negb (bool_decide (SecurityGroup.GroupName sg = Some "default"))
      then
        findings ++ [ {|
          SecurityFinding.securityGroupId := groupId;
          SecurityFinding.securityGroupName :=
            default "unknown" (SecurityGroup.GroupName sg);
          SecurityFinding.ruleId := SecurityRule.id unusedRule;
          SecurityFinding.severity := SecurityRule.severity unusedRule;
          SecurityFinding.description := SecurityRule.description unusedRule;
          SecurityFinding.recommendation := SecurityRule.recommendation unusedRule;
          SecurityFinding.affectedRule := None
        |} ]
      else findings
  | None => findings
  end.

(** [findings.filter(f => f.severity === s).length] *)
Definition countSeverity (s : Severity) (findings : list SecurityFinding.t) : nat :=
  length (List.filter (λ f, bool_decide (SecurityFinding.severity f = s)) findings).

Definition generateSummary (findings : list SecurityFinding.t) (totalGroups : nat)
  : SecurityGroupSummary :=
  {| totalGroups := totalGroups;
     highRiskFindings := countSeverity HIGH findings;
     mediumRiskFindings := countSeverity MEDIUM findings;
     lowRiskFindings := countSeverity LOW findings |}.

Section Analysis.

Context {W : Type}.
Variable rules : list SecurityRule.t.
Variable ec2Client : EC2Client W.

Definition findUnusedSecurityGroups (securityGroups : list SecurityGroup.t)
  : Async W (list SecurityFinding.t) :=
  instancesResponse ← describeInstances ec2Client;
  let usedSecurityGroups := usedSecurityGroupsOf instancesResponse in
  mret (match getRuleById rules "sg-unused" with
        | Some unusedRule =>
            foldl (unusedStep usedSecurityGroups unusedRule) [] securityGroups
        | None => []
        end).

Definition analyze (groupIds : option (list string))
  : Async W SecurityGroupAnalysisResult.t :=
  try_catch
    (response ← describeSecurityGroups ec2Client groupIds;
     let securityGroups := default [] (SecurityGroups response) in
     let findings :=
       foldl (λ findings sg, findings ++ analyzeSecurityGroup rules sg)
             [] securityGroups in
     unusedFindings ← findUnusedSecurityGroups securityGroups;
     let findings := findings ++ unusedFindings in
     mret {|
       SecurityGroupAnalysisResult.summary :=
         generateSummary findings (length securityGroups);
       SecurityGroupAnalysisResult.findings := findings |})
    (λ error,
       throw (Error ("Security group analysis failed: " +:+ messageOf error))).

End Analysis.

End SecurityGroupAnalyzer.

(** ** src/analyzers/public-instance-analyzer.ts *)

Module PublicInstanceAnalyzer.

(** [if (!exposedPorts.includes(port)) exposedPorts.push(port)] *)
Definition pushIfAbsent (exposedPorts : list Z) (port : Z) : list Z :=
  if negb (includes exposedPorts port) then exposedPorts ++ [port]
  else exposedPorts.

(** The body of [for (const permission of sg.IpPermissions ?? [])]; the
    inner loop [for (let port = FromPort; port <= ToPort; port++)] visits
    [FromPort, FromPort + 1, ..., ToPort], no port when [ToPort < FromPort]. *)
Definition exposePermission (exposedPorts : list Z) (permission : IpPermission)
  : list Z :=
  if ipv4Public permission || ipv6Public permission then
    match FromPort permission, ToPort permission with
    | Some fromPort, Some toPort =>
        foldl pushIfAbsent exposedPorts (seqZ fromPort (toPort - fromPort + 1))
    | _, _ => exposedPorts
    end
  else exposedPorts.

Definition assessRisk (exposedPorts : list Z) : Severity :=
  let hasDangerousPorts :=
    existsb (λ port, includes DANGEROUS_PORTS port) exposedPorts in
  if hasDangerousPorts then HIGH
  else if (EXPOSED_PORTS_MEDIUM_THRESHOLD <? length exposedPorts)%nat then MEDIUM
  else LOW.

Definition generateRecommendations (exposedPorts : list Z) : list string :=
  let exposedDangerousPorts :=
    List.filter (λ port, includes DANGEROUS_PORTS port) exposedPorts in
  let recommendations := [] in
  let recommendations :=
    if (0 <? length exposedDangerousPorts)%nat then
      recommendations ++
        [ "Restrict access to dangerous ports: "
          +:+ join ", " (numToString <$> exposedDangerousPorts) ]
    else recommendations in
  let recommendations :=
    if (EXPOSED_PORTS_MEDIUM_THRESHOLD <? length exposedPorts)%nat then
      recommendations ++ [ "Consider reducing the number of exposed ports" ]
    else recommendations in
  let recommendations :=
    if (0 <? length exposedPorts)%nat then
      (recommendations
         ++ [ "Use Application Load Balancer or NAT Gateway for controlled access" ])
        ++ [ "Consider moving to private subnet with VPN access" ]
    else recommendations in
  recommendations.

(** [instance.SecurityGroups?.map(sg => sg.GroupId).filter(id => Boolean(id)) ?? []] *)
Definition securityGroupIdsOf (instance : Instance.t) : list string :=
  match Instance.SecurityGroups instance with
  | Some groups =>
      omap (λ id, id) (List.filter truthy (GroupIdentifier.GroupId <$> groups))
  | None => []
  end.

(** [instance.State?.Name === 'running'] *)
Definition isRunning (instance : Instance.t) : bool :=
  match Instance.State instance with
  | Some state => bool_decide (Name state = Some "running")
  | None => false
  end.

Section Analysis.

Context {W : Type}.
Variable ec2Client : EC2Client W.

Definition getExposedPorts (securityGroupIds : list string) : Async W (list Z) :=
  if (length securityGroupIds =? 0)%nat then mret []
  else
    response ← describeSecurityGroups ec2Client (Some securityGroupIds);
    let exposedPorts :=
      foldl (λ exposedPorts sg,
               foldl exposePermission exposedPorts
                     (default [] (SecurityGroup.IpPermissions sg)))
            [] (default [] (SecurityGroups response)) in
    mret (sort (λ a b, a - b) exposedPorts).

(** The body of [for (const instance of allInstances)]. *)
Definition analyzeInstance (publicInstances : list PublicInstanceInfo)
    (instance : Instance.t) : Async W (list PublicInstanceInfo) :=
  match Instance.PublicIpAddress instance with
  | Some publicIpAddress =>
      if truthy (Some publicIpAddress) && isRunning instance then
        let securityGroupIds := securityGroupIdsOf instance in
        exposedPorts ← getExposedPorts securityGroupIds;
        let riskLevel := assessRisk exposedPorts in
        let recommendations := generateRecommendations exposedPorts in
        mret (publicInstances ++ [ {|
          instanceId := default "unknown" (Instance.InstanceId instance);
          publicIp := publicIpAddress;
          securityGroups := securityGroupIds;
          exposedPorts := exposedPorts;
          riskLevel := riskLevel;
          recommendations := recommendations |} ])
      else mret publicInstances
  | None => mret publicInstances
  end.

Definition analyze : Async W PublicInstanceAnalysisResult.t :=
  try_catch
    (response ← describeInstances ec2Client;
     let allInstances :=
       foldl (λ allInstances reservation,
                allInstances ++ default [] (Instances reservation))
             [] (default [] (Reservations response)) in
     publicInstances ← for_of analyzeInstance allInstances [];
     let totalExposedPorts :=
       foldl (λ sum i, (sum + length (exposedPorts i))%nat) 0%nat publicInstances in
     mret {|
       PublicInstanceAnalysisResult.summary := {|
         totalInstances := length allInstances;
         publicInstances := length publicInstances;
         totalExposedPorts := totalExposedPorts |};
       PublicInstanceAnalysisResult.instances := publicInstances |})
    (λ error,
       throw (Error ("Public instance analysis failed: " +:+ messageOf error))).

End Analysis.

End PublicInstanceAnalyzer.

(** ** src/tools/security-groups.ts *)

Module SecurityGroupTool.

(** [z.infer<typeof SecurityGroupAnalysisSchema>] *)
Record SecurityGroupAnalysisInput := {
  region : option string;
  groupIds : option (list string);
  includeUnused : bool
}.

(** What a schema expected and what it found. *)
Record ZodIssue := {
  expected : string;
  received : JsValue
}.

(** [z.string().optional()] *)
Definition parseOptionalString (v : JsValue)
  : list ZodIssue * option string :=
  match v with
  | JsUndefined => ([], None)
  | JsString s => ([], Some s)
  | _ => ([ {| expected := "string"; received := v |} ], None)
  end.

(** [z.string()] on an element of an array. *)
Definition parseString (v : JsValue) : list ZodIssue * string :=
  match v with
  | JsString s => ([], s)
  | _ => ([ {| expected := "string"; received := v |} ], "")
  end.

(** [z.array(z.string()).optional()] *)
Definition parseOptionalStringArray (v : JsValue)
  : list ZodIssue * option (list string) :=
  match v with
  | JsUndefined => ([], None)
  | JsArray items =>
      let parsed := parseString <$> items in
      (concat (fst <$> parsed), Some (snd <$> parsed))
  | _ => ([ {| expected := "array"; received := v |} ], None)
  end.

(** [z.boolean().optional().default(true)] *)
Definition parseBooleanDefaultTrue (v : JsValue) : list ZodIssue * bool :=
  match v with
  | JsUndefined => ([], true)
  | JsBoolean b => ([], b)
  | _ => ([ {| expected := "boolean"; received := v |} ], true)
  end.

Record SecurityGroupSummaryWithDistribution := {
  summary_totalGroups : nat;
  summary_highRiskFindings : nat;
  summary_mediumRiskFindings : nat;
  summary_lowRiskFindings : nat;
  riskDistribution_high : nat;
  riskDistribution_medium : nat;
  riskDistribution_low : nat
}.

Record SecurityGroupToolOutput := {
  analysisType : string;
  output_region : string;
  timestamp : string;
  summary : SecurityGroupSummaryWithDistribution;
  findings : list SecurityFinding.t;
  recommendations : list string
}.

Definition generateRecommendations (findings : list SecurityFinding.t)
  : list string :=
  let highRiskCount := SecurityGroupAnalyzer.countSeverity HIGH findings in
  let mediumRiskCount := SecurityGroupAnalyzer.countSeverity MEDIUM findings in
  let recommendations := [] in
  let recommendations :=
    if (0 <? highRiskCount)%nat then
      recommendations ++
        [ "Address " +:+ pretty highRiskCount
            +:+ " HIGH severity findings immediately";
          "Implement principle of least privilege for security group rules";
          "Use specific IP ranges instead of 0.0.0.0/0 where possible" ]
    else recommendations in
  let recommendations :=
    if (0 <? mediumRiskCount)%nat then
      recommendations ++
        [ "Review " +:+ pretty mediumRiskCount +:+ " MEDIUM severity findings";
          "Consider implementing a security group naming convention" ]
    else recommendations in
  recommendations ++
    [ "Regular security group audits should be performed";
      "Consider using AWS Config for continuous compliance monitoring";
      "Implement Infrastructure as Code (IaC) for consistent security group management" ].

Section Tool.

Context {W : Type}.

(** The messages zod attaches to an issue and to the error that
    carries the issues. *)
Variable issueMessage : ZodIssue → string.
Variable zodErrorMessage : list ZodIssue → string.

(** [this.awsClient.getEC2Client()], [this.awsClient.getRegion()],
    [this.analyzer]'s rules and [new Date().toISOString()]. *)
Variable ec2Client : EC2Client W.
Variable getRegion : string.
Variable rules : list SecurityRule.t.
Variable toISOString_now : W → string.

Definition new_Date_toISOString : Async W string :=
  λ w, (Returns (toISOString_now w), w).

(** [SecurityGroupAnalysisSchema.parse(input)]: unknown keys are
    stripped, the issues of the three properties are collected in
    the order of the schema. *)
Definition SecurityGroupAnalysisSchema_parse (input : JsValue)
  : Async W SecurityGroupAnalysisInput :=
  match input with
  | JsObject properties =>
      let '(issues1, region) :=
        parseOptionalString (getProperty "region" properties) in
      let '(issues2, groupIds) :=
        parseOptionalStringArray (getProperty "groupIds" properties) in
      let '(issues3, includeUnused) :=
        parseBooleanDefaultTrue (getProperty "includeUnused" properties) in
      let issues := (issues1 ++ issues2) ++ issues3 in
      match issues with
      | [] => mret {| region := region; groupIds := groupIds;
                      includeUnused := includeUnused |}
      | _ => throw (ZodError (issueMessage <$> issues) (zodErrorMessage issues))
      end
  | _ =>
      let issues := [ {| expected := "object"; received := input |} ] in
      throw (ZodError (issueMessage <$> issues) (zodErrorMessage issues))
  end.

Definition execute (input : JsValue) : Async W SecurityGroupToolOutput :=
  try_catch
    (validatedInput ← SecurityGroupAnalysisSchema_parse input;
     let region := default getRegion (region validatedInput) in
     analysisResult ←
       SecurityGroupAnalyzer.analyze rules ec2Client (groupIds validatedInput);
     let s := SecurityGroupAnalysisResult.summary analysisResult in
     now ← new_Date_toISOString;
     mret {|
       analysisType := "security-group";
       output_region := region;
       timestamp := now;
       summary := {|
         summary_totalGroups := totalGroups s;
         summary_highRiskFindings := highRiskFindings s;
         summary_mediumRiskFindings := mediumRiskFindings s;
         summary_lowRiskFindings := lowRiskFindings s;
         riskDistribution_high := highRiskFindings s;
         riskDistribution_medium := mediumRiskFindings s;
         riskDistribution_low := lowRiskFindings s |};
       findings := SecurityGroupAnalysisResult.findings analysisResult;
       recommendations :=
         generateRecommendations
           (SecurityGroupAnalysisResult.findings analysisResult) |})
    (λ error,
       match error with
       | ZodError issues _ =>
           throw (Error ("Input validation failed: "
                         +:+ join ", " issues))
       | Error message =>
           throw (Error ("Security group analysis failed: " +:+ message))
       | NotAnError =>
           throw (Error "An unexpected error occurred during security group analysis")
       end).

End Tool.

End SecurityGroupTool.

(** ** src/config/constants.ts: the critical services *)

(** [new Map<number, string>([...])]; every key occurs once. *)
Definition CRITICAL_PORT_MAP : gmap Z string :=
  list_to_map
    [ (22, "SSH"); (3389, "RDP"); (3306, "MySQL"); (5432, "PostgreSQL");
      (1433, "SQL Server"); (6379, "Redis"); (27017, "MongoDB");
      (5984, "CouchDB") ].

(** ** src/tools/public-instances.ts: the pure helpers of the tool

    [execute] rounds two quotients of JavaScript numbers and is not
    embedded. *)

Module PublicInstanceTool.

Record CriticalPort := {
  port : Z;
  service : string
}.

Record RiskAssessment := {
  highRisk : nat;
  mediumRisk : nat;
  lowRisk : nat;
  criticalServiceExposures : nat
}.

Definition getCriticalPorts (exposedPorts : list Z) : list CriticalPort :=
  (λ port, {| port := port;
              service := default "Unknown" (CRITICAL_PORT_MAP !! port) |})
    <$> List.filter (λ port, bool_decide (is_Some (CRITICAL_PORT_MAP !! port)))
          exposedPorts.

(** [instances.filter(i => i.riskLevel === level).length] *)
Definition countRisk (level : Severity) (instances : list PublicInstanceInfo) : nat :=
  length (List.filter (λ i, bool_decide (riskLevel i = level)) instances).

Definition generateRiskAssessment (instances : list PublicInstanceInfo)
  : RiskAssessment :=
  let criticalServiceExposures :=
    foldl (λ acc instance,
             (acc + length (getCriticalPorts (exposedPorts instance)))%nat)
          0%nat instances in
  {| highRisk := countRisk HIGH instances;
     mediumRisk := countRisk MEDIUM instances;
     lowRisk := countRisk LOW instances;
     criticalServiceExposures := criticalServiceExposures |}.

Definition generateRecommendations (instances : list PublicInstanceInfo)
    (riskAssessment : RiskAssessment) : list string :=
  let recommendations := [] in
  if (length instances =? 0)%nat then
    (recommendations
       ++ [ "No public instances detected - good security posture" ])
      ++ [ "Continue regular monitoring for new public instances" ]
  else
    let recommendations :=
      if (0 <? highRisk riskAssessment)%nat then
        recommendations ++
          [ pretty (highRisk riskAssessment)
              +:+ " high-risk public instances require immediate attention";
            "Consider moving critical services to private subnets";
            "Implement bastion hosts or VPN for administrative access" ]
      else recommendations in
    let recommendations :=
      if (0 <? criticalServiceExposures riskAssessment)%nat then
        recommendations ++
          [ pretty (criticalServiceExposures riskAssessment)
              +:+ " critical service ports exposed";
            "Use Application Load Balancers to reduce direct instance exposure";
            "Consider CloudFront for web applications" ]
      else recommendations in
    recommendations ++
      [ "Implement Infrastructure as Code for consistent security configurations";
        "Set up CloudWatch alerts for new public instance creation";
        "Regular security assessments should be automated" ].

End PublicInstanceTool.

(** ** src/services/aws-client.ts

    A service is what its constructor hands to [new EC2Client]; the
    registry [clientsByKey] is keyed by the JSON text of the object
    [{ region, accessKeyId }], which determines, and is determined by,
    its two strings: the key is that pair. *)

Module AWSClient.

Record AWSClientConfig := {
  region : option string;
  accessKeyId : option string;
  secretAccessKey : option string
}.

(** The three variables read from [process.env]. *)
Record Env := {
  AWS_REGION : option string;
  AWS_ACCESS_KEY_ID : option string;
  AWS_SECRET_ACCESS_KEY : option string
}.

Record Credentials := {
  credentials_accessKeyId : string;
  credentials_secretAccessKey : string
}.

Record EC2ClientConfig := {
  clientConfig_region : string;
  clientConfig_credentials : option Credentials
}.

(** [a ?? b] on two optional strings. *)
Definition orElse (a b : option string) : option string :=
  match a with
  | Some _ => a
  | None => b
  end.

(** [new AWSClientService(config)] *)
Definition AWSClientService (env : Env) (config : option AWSClientConfig)
  : EC2ClientConfig :=
  let region :=
    default "us-east-1" (orElse (config ≫= region) (AWS_REGION env)) in
  let credentials :=
    match config ≫= accessKeyId, config ≫= secretAccessKey with
    | Some keyId, Some secret =>
        if truthy (Some keyId) && truthy (Some secret) then
          Some {| credentials_accessKeyId := keyId;
                  credentials_secretAccessKey := secret |}
        else None
    | _, _ => None
    end in
  let credentials :=
    match credentials with
    | Some c => Some c
    | None =>
        match AWS_ACCESS_KEY_ID env, AWS_SECRET_ACCESS_KEY env with
        | Some keyId, Some secret =>
            if truthy (Some keyId) && truthy (Some secret) then
              Some {| credentials_accessKeyId := keyId;
                      credentials_secretAccessKey := secret |}
            else None
        | _, _ => None
        end
    end in
  {| clientConfig_region := region; clientConfig_credentials := credentials |}.

(** The two strings serialised into the registry key. *)
Definition clientKey (env : Env) (config : option AWSClientConfig)
  : string * string :=
  (default "us-east-1" (orElse (config ≫= region) (AWS_REGION env)),
   default "" (orElse (config ≫= accessKeyId) (AWS_ACCESS_KEY_ID env))).

Definition getAWSClient (env : Env) (config : option AWSClientConfig)
    (clientsByKey : gmap (string * string) EC2ClientConfig)
  : EC2ClientConfig * gmap (string * string) EC2ClientConfig :=
  let key := clientKey env config in
  match clientsByKey !! key with
  | Some client => (client, clientsByKey)
  | None =>
      let client := AWSClientService env config in
      (client, <[ key := client ]> clientsByKey)
  end.

Definition resetAWSClient
    (clientsByKey : gmap (string * string) EC2ClientConfig)
  : gmap (string * string) EC2ClientConfig := ∅.

End AWSClient.

(** ** Vocabulary of the statements *)

(** A finding that carries the id of a rule of the catalog. *)
Definition citesCatalog (rules : list SecurityRule.t) (f : SecurityFinding.t) : Prop :=
  ∃ rule, rule ∈ rules ∧ SecurityRule.id rule = SecurityFinding.ruleId f.


(** ** Catalogs and records used in the tests and scenarios *)

Definition mockRules : list SecurityRule.t :=
  [ SecurityRule.mk "sg-ssh-world" "SSH Open to World"
      "SSH port 22 is accessible from anywhere" HIGH
      (Some 22) (Some "tcp") (Some "0.0.0.0/0") "Restrict SSH access";
    SecurityRule.mk "sg-wide-port-range" "Wide Port Range"
      "Wide port range" MEDIUM None None None "Restrict ports";
    SecurityRule.mk "sg-unused" "Unused Security Group"
      "Security group is not attached" LOW None None None "Remove unused";
    SecurityRule.mk "sg-all-traffic" "All Traffic Allowed"
      "All traffic allowed" HIGH None None None "Restrict traffic" ].


(** The permission used by the analyzer's own test of the wide-range
    check: a wide range opened to a private network only. *)
Definition privateWidePermission : IpPermission :=
  {| FromPort := Some 1000; ToPort := Some 2000; IpProtocol := Some "tcp";
     IpRanges := Some [ {| CidrIp := Some "10.0.0.0/8" |} ];
     Ipv6Ranges := None |}.


(** The test a catalog rule has to pass to fire on a permission with the
    given protocol and port interval. *)
Definition firesOn (protocol : string) (fromPort toPort : Z)
    (rule : SecurityRule.t) : bool :=
  SecurityGroupAnalyzer.isDangerousRule protocol rule
  && match SecurityRule.port rule with
     | Some rulePort => (fromPort <=? rulePort) && (rulePort <=? toPort)
     | None => false
     end.

(** Scenario B of the specification. *)
Definition publicWidePermission : IpPermission :=
  {| FromPort := Some 1000; ToPort := Some 2000; IpProtocol := Some "tcp";
     IpRanges := Some [ {| CidrIp := Some "0.0.0.0/0" |} ];
     Ipv6Ranges := None |}.


(** The test double of the analyzers' tests: [mock(() => Promise.resolve({}))]
    primed with [mockResolvedValueOnce] and [mockRejectedValueOnce].  The
    state is the queue of primed answers; an answer of the other shape,
    or none, is read as an object without the expected property. *)
Inductive MockAnswer :=
| ResolvesSecurityGroups (response : DescribeSecurityGroupsResult)
| ResolvesInstances (response : DescribeInstancesResult)
| Rejects (error : Thrown).

Definition mockEC2Client : EC2Client (list MockAnswer) := {|
  describeSecurityGroups := λ _ queue,
    match queue with
    | ResolvesSecurityGroups response :: queue' => (Returns response, queue')
    | Rejects error :: queue' => (Throws error, queue')
    | _ :: queue' => (Returns {| SecurityGroups := None |}, queue')
    | [] => (Returns {| SecurityGroups := None |}, [])
    end;
  describeInstances := λ queue,
    match queue with
    | ResolvesInstances response :: queue' => (Returns response, queue')
    | Rejects error :: queue' => (Throws error, queue')
    | _ :: queue' => (Returns {| Reservations := None |}, queue')
    | [] => (Returns {| Reservations := None |}, [])
    end
|}.

Definition unusedRule : SecurityRule.t :=
  SecurityRule.mk "sg-unused" "Unused Security Group"
    "Security group is not attached" LOW None None None "Remove unused".


(** A group record without an id. *)
Definition idlessGroup : SecurityGroup.t :=
  {| SecurityGroup.GroupId := None;
     SecurityGroup.GroupName := Some "orphan";
     SecurityGroup.IpPermissions := None |}.

(** The unattached group of the analyzer's test of the unused check. *)
Definition orphanGroup : SecurityGroup.t :=
  {| SecurityGroup.GroupId := Some "sg-unused";
     SecurityGroup.GroupName := Some "unused-sg";
     SecurityGroup.IpPermissions := Some [] |}.

(** Scenario F of the specification. *)
Definition defaultGroup : SecurityGroup.t :=
  {| SecurityGroup.GroupId := Some "sg-x";
     SecurityGroup.GroupName := Some "default";
     SecurityGroup.IpPermissions := None |}.

Definition noReservations : DescribeInstancesResult :=
  {| Reservations := Some [] |}.

(** A catalog that holds the SSH rule only. *)
Definition sshOnlyRules : list SecurityRule.t :=
  [ SecurityRule.mk "sg-ssh-world" "SSH Open to World"
      "SSH port 22 is accessible from anywhere" HIGH
      (Some 22) (Some "tcp") (Some "0.0.0.0/0") "Restrict SSH access" ].

(** All traffic opened to the world over IPv6, as in the analyzer's test. *)
Definition allTrafficPermission : IpPermission :=
  {| FromPort := None; ToPort := None; IpProtocol := Some "-1";
     IpRanges := None;
     Ipv6Ranges := Some [ {| CidrIpv6 := Some "::/0" |} ] |}.

(** The file system of the loader's tests: one file, which is not JSON;
    and a [JSON.parse] that accepts the empty array only. *)
Definition testExistsSync (path : string) : bool :=
  bool_decide (path = "/tmp/rules-test/invalid.json").

Definition testReadFileSync (path : string) : Outcome string :=
  if bool_decide (path = "/tmp/rules-test/invalid.json")
  then Returns "{ invalid json }"
  else Throws (Error "ENOENT: no such file or directory").

Definition testJSON_parse (text : string) : Outcome JsValue :=
  if bool_decide (text = "[]") then Returns (JsArray [])
  else Throws (Error "SyntaxError: Unexpected token").

(** The collaborators of the tool in its tests: region us-east-1, a fixed
    clock, and issue messages that name the expected type. *)
Definition testIssueMessage (issue : SecurityGroupTool.ZodIssue) : string :=
  "Expected " +:+ SecurityGroupTool.expected issue.

Definition testZodErrorMessage (issues : list SecurityGroupTool.ZodIssue) : string :=
  join "; " (testIssueMessage <$> issues).

Definition testClock (queue : list MockAnswer) : string :=
  "2024-01-15T10:30:00.000Z".

(** A catalog with one unattached group and no instance. *)
Definition orphanWorld : list MockAnswer :=
  [ ResolvesSecurityGroups {| SecurityGroups := Some [orphanGroup] |};
    ResolvesInstances noReservations ].

(** An instance is listed when it has a public IP address and is running. *)
Definition isPublicRunning (instance : Instance.t) : bool :=
  truthy (Instance.PublicIpAddress instance) && PublicInstanceAnalyzer.isRunning instance.

(** An EC2 service whose answers do not change and that never fails. *)
Definition steadyEC2Client (instancesResponse : DescribeInstancesResult)
    (groupsResponse : DescribeSecurityGroupsResult) : EC2Client () := {|
  describeSecurityGroups := λ _ w, (Returns groupsResponse, w);
  describeInstances := λ w, (Returns instancesResponse, w)
|}.

(** The reservation of the analyzer's test of stopped instances. *)
Definition runningInstance : Instance.t :=
  {| Instance.InstanceId := Some "i-running";
     Instance.PublicIpAddress := Some "1.1.1.1";
     Instance.State := Some {| Name := Some "running" |};
     Instance.SecurityGroups := Some [ GroupIdentifier.mk (Some "sg-1") ] |}.

Definition stoppedInstance : Instance.t :=
  {| Instance.InstanceId := Some "i-stopped";
     Instance.PublicIpAddress := Some "2.2.2.2";
     Instance.State := Some {| Name := Some "stopped" |};
     Instance.SecurityGroups := Some [ GroupIdentifier.mk (Some "sg-1") ] |}.

Definition stoppedTestInstances : DescribeInstancesResult :=
  {| Reservations :=
       Some [ {| Instances := Some [runningInstance; stoppedInstance] |} ] |}.

Definition stoppedTestGroups : DescribeSecurityGroupsResult :=
  {| SecurityGroups :=
       Some [ {| SecurityGroup.GroupId := Some "sg-1";
                 SecurityGroup.GroupName := None;
                 SecurityGroup.IpPermissions := Some [] |} ] |}.

(** Two groups with overlapping public ranges and one private rule. *)
Definition overlappingGroups : DescribeSecurityGroupsResult :=
  {| SecurityGroups := Some [
       {| SecurityGroup.GroupId := Some "sg-a";
          SecurityGroup.GroupName := Some "web";
          SecurityGroup.IpPermissions := Some [
            {| FromPort := Some 443; ToPort := Some 445;
               IpProtocol := Some "tcp";
               IpRanges := Some [ {| CidrIp := Some "0.0.0.0/0" |} ];
               Ipv6Ranges := None |};
            {| FromPort := Some 22; ToPort := Some 22;
               IpProtocol := Some "tcp";
               IpRanges := Some [ {| CidrIp := Some "10.0.0.0/8" |} ];
               Ipv6Ranges := None |} ] |};
       {| SecurityGroup.GroupId := Some "sg-b";
          SecurityGroup.GroupName := Some "dns";
          SecurityGroup.IpPermissions := Some [
            {| FromPort := Some 53; ToPort := Some 53;
               IpProtocol := Some "udp";
               IpRanges := None;
               Ipv6Ranges := Some [ {| CidrIpv6 := Some "::/0" |} ] |};
            {| FromPort := Some 444; ToPort := Some 446;
               IpProtocol := Some "udp";
               IpRanges := Some [ {| CidrIp := Some "0.0.0.0/0" |} ];
               Ipv6Ranges := None |} ] |} ] |}.

(** ** Further vocabulary and test data *)

(** A finding that takes its rule id, severity and recommendation from one
    rule of the catalog. *)
Definition builtFromCatalog (rules : list SecurityRule.t) (f : SecurityFinding.t)
  : Prop :=
  ∃ rule,
    rule ∈ rules
    ∧ SecurityFinding.ruleId f = SecurityRule.id rule
    ∧ SecurityFinding.severity f = SecurityRule.severity rule
    ∧ SecurityFinding.recommendation f = SecurityRule.recommendation rule.

(** The order LOW < MEDIUM < HIGH of the risk levels. *)
Definition riskRank (level : Severity) : nat :=
  match level with
  | LOW => 0
  | MEDIUM => 1
  | HIGH => 2
  end.

(** A service that rejects the first request. *)
Definition failingWorld : list MockAnswer :=
  [ Rejects (Error "AWS API Error") ].

(** A service that answers the groups and rejects the instances. *)
Definition halfFailingWorld : list MockAnswer :=
  [ ResolvesSecurityGroups {| SecurityGroups := Some [orphanGroup] |};
    Rejects (Error "DescribeInstances failed") ].

(** A file system that holds the shipped catalog only, and a [JSON.parse]
    that reads it as a catalog of one rule. *)
Definition shippedExistsSync (path : string) : bool :=
  bool_decide (path = "/app/rules/security-rules.json").

Definition shippedReadFileSync (path : string) : Outcome string :=
  if bool_decide (path = "/app/rules/security-rules.json")
  then Returns "catalog"
  else Throws (Error "ENOENT: no such file or directory").

Definition shippedRules : JsValue :=
  JsArray [ JsObject [ ("id", JsString "test-rule");
                       ("severity", JsString "HIGH") ] ].

Definition shippedJSON_parse (text : string) : Outcome JsValue :=
  if bool_decide (text = "catalog")
  then Returns (JsObject [ ("rules", shippedRules) ])
  else Throws (Error "SyntaxError: Unexpected token").

(** A [JSON.parse] that reads every text as an object without rules. *)
Definition emptyObjectJSON_parse (text : string) : Outcome JsValue :=
  Returns (JsObject [ ("version", JsNumber 1) ]).

(** What every entry of the list of public instances satisfies. *)
Definition consistentInstance (i : PublicInstanceInfo) : Prop :=
  riskLevel i = PublicInstanceAnalyzer.assessRisk (exposedPorts i)
  ∧ recommendations i
    = PublicInstanceAnalyzer.generateRecommendations (exposedPorts i)
  ∧ StronglySorted Z.lt (exposedPorts i)
  ∧ publicIp i ≠ "".



(** A fleet without public addresses. *)
Definition privateInstance : Instance.t :=
  {| Instance.InstanceId := Some "i-private";
     Instance.PublicIpAddress := None;
     Instance.State := Some {| Name := Some "running" |};
     Instance.SecurityGroups := Some [ GroupIdentifier.mk (Some "sg-1") ] |}.

Definition privateFleet : DescribeInstancesResult :=
  {| Reservations :=
       Some [ {| Instances := Some [privateInstance; stoppedInstance] |} ] |}.

(** The instances of the tool's test. *)
Definition toolTestInstances : list PublicInstanceInfo :=
  [ {| instanceId := "i-high-risk"; publicIp := "1.2.3.4";
       securityGroups := ["sg-1"]; exposedPorts := [22; 3306];
       riskLevel := HIGH;
       recommendations :=
         PublicInstanceAnalyzer.generateRecommendations [22; 3306] |};
    {| instanceId := "i-low-risk"; publicIp := "9.10.11.12";
       securityGroups := ["sg-3"]; exposedPorts := [443];
       riskLevel := LOW;
       recommendations := PublicInstanceAnalyzer.generateRecommendations [443] |} ].

(** An environment without AWS variables, and two configurations that
    differ in the secret only. *)
Definition emptyEnv : AWSClient.Env :=
  {| AWSClient.AWS_REGION := None;
     AWSClient.AWS_ACCESS_KEY_ID := None;
     AWSClient.AWS_SECRET_ACCESS_KEY := None |}.

Definition firstSecretConfig : AWSClient.AWSClientConfig :=
  {| AWSClient.region := Some "us-east-1";
     AWSClient.accessKeyId := Some "key1";
     AWSClient.secretAccessKey := Some "first-secret" |}.

Definition secondSecretConfig : AWSClient.AWSClientConfig :=
  {| AWSClient.region := Some "us-east-1";
     AWSClient.accessKeyId := Some "key1";
     AWSClient.secretAccessKey := Some "second-secret" |}.

(** A HIGH finding, as the dangerous-port check emits it for SSH. *)
Definition sshFinding : SecurityFinding.t :=
  {| SecurityFinding.securityGroupId := "sg-1";
     SecurityFinding.securityGroupName := "test-sg";
     SecurityFinding.ruleId := "sg-ssh-world";
     SecurityFinding.severity := HIGH;
     SecurityFinding.description := "SSH port 22 is accessible from anywhere";
     SecurityFinding.recommendation := "Restrict SSH access";
     SecurityFinding.affectedRule := Some {|
       affectedPort := PortNumber 22;
       affectedProtocol := "tcp";
       affectedSource := "0.0.0.0/0" |} |}.
(** * Properties *)

Import SecurityGroupAnalyzer.

(** Exposes the statements of an asynchronous computation. *)
Ltac unfold_async :=
  unfold try_catch, mbind, Async_bind, mret, Async_ret, throw.

(** ** Properties of the permission checks *)

Section PermissionChecks.

Variable rules : list SecurityRule.t.
Implicit Types (permission : IpPermission) (sgId sgName : string).

Lemma foldl_dangerousPortStep permission sgId sgName protocol publicSource
    (l : list SecurityRule.t) (acc : list SecurityFinding.t) :
  foldl (dangerousPortStep permission sgId sgName protocol publicSource) acc l
  = acc ++ foldl (dangerousPortStep permission sgId sgName protocol publicSource) [] l.
Proof.
  revert acc. induction l as [|rule l IH]; intros acc; simpl.
  - by rewrite app_nil_r.
  - rewrite IH. rewrite (IH (dangerousPortStep _ _ _ _ _ [] rule)).
    rewrite app_assoc. f_equal.
    unfold dangerousPortStep.
    destruct (FromPort permission), (ToPort permission),
      (SecurityRule.port rule); simpl; rewrite ?app_nil_r; try done.
    case_match; simpl; by rewrite ?app_nil_r.
Qed.

Lemma not_public_negb permission :
  ipv4Public permission = false → ipv6Public permission = false →
  negb (ipv4Public permission) && negb (ipv6Public permission) = true.
Proof. by intros -> ->. Qed.

Lemma public_negb permission :
  ipv4Public permission || ipv6Public permission = true →
  negb (ipv4Public permission) && negb (ipv6Public permission) = false.
Proof. by destruct (ipv4Public permission), (ipv6Public permission). Qed.

End PermissionChecks.

Lemma checkDangerousPorts_app rules1 rules2 permission sgId sgName :
  checkDangerousPorts (rules1 ++ rules2) permission sgId sgName
  = checkDangerousPorts rules1 permission sgId sgName
    ++ checkDangerousPorts rules2 permission sgId sgName.
Proof.
  unfold checkDangerousPorts.
  destruct (negb (ipv4Public permission) && negb (ipv6Public permission)); [done|].
  rewrite List.filter_app, foldl_app.
  by rewrite foldl_dangerousPortStep.
Qed.

Lemma checkDangerousPorts_nil permission sgId sgName :
  checkDangerousPorts [] permission sgId sgName = [].
Proof. unfold checkDangerousPorts. by case_match. Qed.

Lemma checkDangerousPorts_cons rule rules permission sgId sgName :
  checkDangerousPorts (rule :: rules) permission sgId sgName
  = checkDangerousPorts [rule] permission sgId sgName
    ++ checkDangerousPorts rules permission sgId sgName.
Proof. apply (checkDangerousPorts_app [rule] rules). Qed.

(** The dangerous-port check stays silent on a permission that is not
    publicly exposed. *)
Lemma checkDangerousPorts_not_public rules permission sgId sgName :
  ipv4Public permission = false → ipv6Public permission = false →
  checkDangerousPorts rules permission sgId sgName = [].
Proof.
  intros H4 H6. unfold checkDangerousPorts.
  by rewrite not_public_negb.
Qed.

(** The all-traffic check stays silent on a permission that is not
    publicly exposed. *)
Lemma checkAllTrafficRules_not_public rules permission sgId sgName :
  ipv4Public permission = false → ipv6Public permission = false →
  checkAllTrafficRules rules permission sgId sgName = [].
Proof.
  intros H4 H6. unfold checkAllTrafficRules. rewrite H4, H6. simpl.
  by case_bool_decide.
Qed.

(** The wide-port-range check emits at most one finding. *)
Lemma checkWidePortRanges_length rules permission sgId sgName :
  (length (checkWidePortRanges rules permission sgId sgName) ≤ 1)%nat.
Proof.
  unfold checkWidePortRanges.
  repeat case_match; simpl; lia.
Qed.

(** C1, as stated, fails: a permission that carries neither 0.0.0.0/0 nor
    ::/0 still yields a wide-port-range finding. *)
Lemma non_public_permission_yields_finding :
  ipv4Public privateWidePermission = false
  ∧ ipv6Public privateWidePermission = false
  ∧ analyzePermission mockRules "sg-2" "wide-range-sg" [] privateWidePermission
    = [ {|
        SecurityFinding.securityGroupId := "sg-2";
        SecurityFinding.securityGroupName := "wide-range-sg";
        SecurityFinding.ruleId := "sg-wide-port-range";
        SecurityFinding.severity := MEDIUM;
        SecurityFinding.description := "Wide port range (1000-2000)";
        SecurityFinding.recommendation := "Restrict ports";
        SecurityFinding.affectedRule := Some {|
          affectedPort := PortString "1000-2000";
          affectedProtocol := "tcp";
          affectedSource := "10.0.0.0/8" |}
      |} ].
Proof. by vm_compute. Qed.

(** C1 (amended): a permission that is not publicly exposed yields no
    dangerous-port finding and no all-traffic finding; what its
    evaluation pushes is exactly the result of the wide-port-range check,
    which does not look at the sources and emits at most one finding. *)
Theorem non_public_permission_findings rules permission sgId sgName :
  ipv4Public permission = false →
  ipv6Public permission = false →
  checkDangerousPorts rules permission sgId sgName = []
  ∧ checkAllTrafficRules rules permission sgId sgName = []
  ∧ analyzePermission rules sgId sgName [] permission
    = checkWidePortRanges rules permission sgId sgName
  ∧ (length (analyzePermission rules sgId sgName [] permission) ≤ 1)%nat.
Proof.
  intros H4 H6.
  assert (Hall : analyzePermission rules sgId sgName [] permission
                 = checkWidePortRanges rules permission sgId sgName).
  { unfold analyzePermission.
    rewrite checkDangerousPorts_not_public, checkAllTrafficRules_not_public by done.
    by rewrite app_nil_r. }
  split_and!; try done.
  - by apply checkDangerousPorts_not_public.
  - by apply checkAllTrafficRules_not_public.
  - rewrite Hall. apply checkWidePortRanges_length.
Qed.

Lemma non_public_permission_findings_witness :
  checkDangerousPorts mockRules privateWidePermission "sg-2" "wide-range-sg" = []
  ∧ checkAllTrafficRules mockRules privateWidePermission "sg-2" "wide-range-sg" = []
  ∧ analyzePermission mockRules "sg-2" "wide-range-sg" [] privateWidePermission
    = checkWidePortRanges mockRules privateWidePermission "sg-2" "wide-range-sg"
  ∧ (length (analyzePermission mockRules "sg-2" "wide-range-sg" []
               privateWidePermission) ≤ 1)%nat.
Proof.
  apply (non_public_permission_findings mockRules privateWidePermission);
    reflexivity.
Defined.



(** No deduplication: the dangerous-port check emits as many findings as
    there are catalog entries that fire. *)
Lemma checkDangerousPorts_count rules permission sgId sgName fromPort toPort :
  ipv4Public permission || ipv6Public permission = true →
  FromPort permission = Some fromPort →
  ToPort permission = Some toPort →
  length (checkDangerousPorts rules permission sgId sgName)
  = length (List.filter
              (firesOn (default "unknown" (IpProtocol permission)) fromPort toPort)
              rules).
Proof.
  intros Hpub Hfrom Hto.
  induction rules as [|rule rules IH].
  - by rewrite checkDangerousPorts_nil.
  - rewrite checkDangerousPorts_cons, length_app, IH. simpl.
    unfold checkDangerousPorts at 1. rewrite public_negb by done. simpl.
    unfold firesOn.
    destruct (isDangerousRule _ rule) eqn:Hd; simpl; [|done].
    unfold dangerousPortStep. rewrite Hfrom, Hto.
    destruct (SecurityRule.port rule) as [rulePort|]; [|done].
    by destruct ((fromPort <=? rulePort) && (rulePort <=? toPort)).
Qed.

Lemma getRuleById_Some_id rules ruleId rule :
  getRuleById rules ruleId = Some rule → SecurityRule.id rule = ruleId.
Proof.
  unfold getRuleById. intros [_ H]%find_some. by apply bool_decide_eq_true in H.
Qed.

Lemma getRuleById_Some_elem rules ruleId rule :
  getRuleById rules ruleId = Some rule → rule ∈ rules.
Proof.
  unfold getRuleById. intros [H _]%find_some. by apply list_elem_of_In.
Qed.

Lemma getRuleById_None rules ruleId :
  getRuleById rules ruleId = None ↔
  ∀ rule, rule ∈ rules → SecurityRule.id rule ≠ ruleId.
Proof.
  unfold getRuleById. split.
  - intros H rule Hin%list_elem_of_In.
    pose proof (find_none _ _ H _ Hin) as Hf.
    by apply bool_decide_eq_false in Hf.
  - intros H. destruct (List.find _ rules) as [rule|] eqn:Hf; [|done].
    apply find_some in Hf as [Hin%list_elem_of_In Hid%bool_decide_eq_true].
    by destruct (H rule Hin).
Qed.

Lemma getRuleById_is_Some rules ruleId :
  (∃ rule, rule ∈ rules ∧ SecurityRule.id rule = ruleId) →
  ∃ rule, getRuleById rules ruleId = Some rule.
Proof.
  intros (rule & Hin & Hid).
  destruct (getRuleById rules ruleId) as [found|] eqn:Hf; [by eexists|].
  by destruct (proj1 (getRuleById_None _ _) Hf rule Hin).
Qed.



Example scenario_B_span : numToString 1000 +:+ "-" +:+ numToString 2000 = "1000-2000".
Proof. by vm_compute. Qed.

Example scenario_B :
  checkWidePortRanges mockRules publicWidePermission "sg-2" "wide-range-sg"
  = [ {|
      SecurityFinding.securityGroupId := "sg-2";
      SecurityFinding.securityGroupName := "wide-range-sg";
      SecurityFinding.ruleId := "sg-wide-port-range";
      SecurityFinding.severity := MEDIUM;
      SecurityFinding.description := "Wide port range (1000-2000)";
      SecurityFinding.recommendation := "Restrict ports";
      SecurityFinding.affectedRule := Some {|
        affectedPort := PortString "1000-2000";
        affectedProtocol := "tcp";
        affectedSource := "0.0.0.0/0" |}
    |} ].
Proof. by vm_compute. Qed.

(** ** Risk classification *)

Lemma includes_elem_of (l : list Z) (x : Z) : includes l x = true ↔ x ∈ l.
Proof.
  unfold includes. rewrite existsb_exists. split.
  - intros (y & Hin%list_elem_of_In & Hy%bool_decide_eq_true). by subst.
  - intros Hin%list_elem_of_In. exists x. by rewrite bool_decide_eq_true.
Qed.

Lemma includes_false (l : list Z) (x : Z) : includes l x = false ↔ x ∉ l.
Proof.
  rewrite <- includes_elem_of. by destruct (includes l x).
Qed.

Lemma hasDangerousPorts_spec (exposedPorts : list Z) :
  existsb (λ port, includes DANGEROUS_PORTS port) exposedPorts = true
  ↔ ∃ port, port ∈ exposedPorts ∧ port ∈ DANGEROUS_PORTS.
Proof.
  rewrite existsb_exists. split.
  - intros (port & Hin%list_elem_of_In & Hd%includes_elem_of). eauto.
  - intros (port & Hin%list_elem_of_In & Hd%includes_elem_of). eauto.
Qed.

(** C4: the risk level of a list of exposed ports is HIGH exactly when
    the list holds one of the ports 22, 3389, 3306, 5432, 1433, 6379,
    27017, 5984; otherwise MEDIUM exactly when it has more than five
    entries; otherwise LOW.  Nothing but the list enters the result. *)
Theorem assessRisk_classification (exposedPorts : list Z) :
  DANGEROUS_PORTS = [22; 3389; 3306; 5432; 1433; 6379; 27017; 5984]
  ∧ (PublicInstanceAnalyzer.assessRisk exposedPorts = HIGH
     ↔ ∃ port, port ∈ exposedPorts ∧ port ∈ DANGEROUS_PORTS)
  ∧ (PublicInstanceAnalyzer.assessRisk exposedPorts = MEDIUM
     ↔ (¬ ∃ port, port ∈ exposedPorts ∧ port ∈ DANGEROUS_PORTS)
       ∧ (length exposedPorts > 5)%nat)
  ∧ (PublicInstanceAnalyzer.assessRisk exposedPorts = LOW
     ↔ (¬ ∃ port, port ∈ exposedPorts ∧ port ∈ DANGEROUS_PORTS)
       ∧ (length exposedPorts ≤ 5)%nat).
Proof.
  split; [done|].
  unfold PublicInstanceAnalyzer.assessRisk, EXPOSED_PORTS_MEDIUM_THRESHOLD.
  pose proof (hasDangerousPorts_spec exposedPorts) as Hd.
  destruct (existsb _ exposedPorts).
  - assert (∃ port, port ∈ exposedPorts ∧ port ∈ DANGEROUS_PORTS) as Hex
      by by apply Hd.
    split_and!; split; try done; intros [Hn _]; by destruct Hn.
  - assert (¬ ∃ port, port ∈ exposedPorts ∧ port ∈ DANGEROUS_PORTS) as Hn.
    { intros Hex. apply Hd in Hex. done. }
    destruct (5 <? length exposedPorts)%nat eqn:Hlen.
    + apply Nat.ltb_lt in Hlen. naive_solver lia.
    + apply Nat.ltb_ge in Hlen. naive_solver lia.
Qed.

Example scenario_C : PublicInstanceAnalyzer.assessRisk [22; 3306] = HIGH.
Proof. reflexivity. Qed.

Example scenario_D :
  PublicInstanceAnalyzer.assessRisk [80; 443; 8080; 8081; 8082; 8083] = MEDIUM.
Proof. reflexivity. Qed.

Example scenario_E : PublicInstanceAnalyzer.assessRisk [443] = LOW.
Proof. reflexivity. Qed.

(** ** Sorting with the comparator [(a, b) => a - b] *)

Lemma sort_insert_Permutation compareFn a l :
  sort_insert compareFn a l ≡ₚ a :: l.
Proof.
  induction l as [|b l IH]; simpl; [done|].
  case_match; [done|]. rewrite IH. apply Permutation_swap.
Qed.

Lemma sort_Permutation compareFn l : sort compareFn l ≡ₚ l.
Proof.
  induction l as [|a l IH]; simpl; [done|].
  change (sort_insert compareFn a (sort compareFn l) ≡ₚ a :: l).
  by rewrite sort_insert_Permutation, IH.
Qed.

Lemma sort_insert_sorted a l :
  StronglySorted Z.le l → StronglySorted Z.le (sort_insert (λ a b, a - b) a l).
Proof.
  induction 1 as [|b l Hl IH Hb]; simpl.
  - repeat constructor.
  - destruct (a - b <=? 0) eqn:Hcmp.
    + apply Z.leb_le in Hcmp.
      constructor; [by constructor|].
      constructor; [lia|].
      eapply Forall_impl; [exact Hb|]. simpl. intros; lia.
    + apply Z.leb_gt in Hcmp.
      constructor; [done|].
      rewrite sort_insert_Permutation. constructor; [lia | done].
Qed.

Lemma sort_sorted l : StronglySorted Z.le (sort (λ a b, a - b) l).
Proof.
  induction l as [|a l IH]; simpl; [constructor|].
  by apply sort_insert_sorted.
Qed.

Lemma StronglySorted_le_NoDup_lt (l : list Z) :
  StronglySorted Z.le l → NoDup l → StronglySorted Z.lt l.
Proof.
  induction 1 as [|a l Hl IH Ha]; intros Hnd; [constructor|].
  apply NoDup_cons in Hnd as [Hnotin Hnd].
  constructor; [by apply IH|].
  apply Forall_forall. intros x Hx.
  rewrite Forall_forall in Ha. specialize (Ha x Hx).
  assert (a ≠ x) by (intros ->; done). lia.
Qed.

(** ** Exposed ports *)


Lemma pushIfAbsent_NoDup exposedPorts port :
  NoDup exposedPorts → NoDup (PublicInstanceAnalyzer.pushIfAbsent exposedPorts port).
Proof.
  intros Hnd. unfold PublicInstanceAnalyzer.pushIfAbsent.
  destruct (includes exposedPorts port) eqn:Hinc; simpl; [done|].
  apply includes_false in Hinc.
  apply NoDup_app. split_and!; [done | | apply NoDup_singleton].
  intros x Hx ->%list_elem_of_singleton. done.
Qed.


Lemma foldl_pushIfAbsent_NoDup ports exposedPorts :
  NoDup exposedPorts →
  NoDup (foldl PublicInstanceAnalyzer.pushIfAbsent exposedPorts ports).
Proof.
  revert exposedPorts. induction ports as [|port ports IH]; intros acc Hnd; simpl.
  - done.
  - by apply IH, pushIfAbsent_NoDup.
Qed.


Lemma exposePermission_NoDup exposedPorts permission :
  NoDup exposedPorts →
  NoDup (PublicInstanceAnalyzer.exposePermission exposedPorts permission).
Proof.
  intros Hnd. unfold PublicInstanceAnalyzer.exposePermission.
  repeat case_match; try done. by apply foldl_pushIfAbsent_NoDup.
Qed.


Lemma foldl_exposePermission_NoDup permissions exposedPorts :
  NoDup exposedPorts →
  NoDup (foldl PublicInstanceAnalyzer.exposePermission exposedPorts permissions).
Proof.
  revert exposedPorts.
  induction permissions as [|permission permissions IH]; intros acc Hnd; simpl.
  - done.
  - by apply IH, exposePermission_NoDup.
Qed.


Lemma foldl_groups_NoDup (groups : list SecurityGroup.t) exposedPorts :
  NoDup exposedPorts →
  NoDup (foldl (λ exposedPorts sg,
                  foldl PublicInstanceAnalyzer.exposePermission exposedPorts
                        (default [] (SecurityGroup.IpPermissions sg)))
               exposedPorts groups).
Proof.
  revert exposedPorts. induction groups as [|sg groups IH]; intros acc Hnd; simpl.
  - done.
  - by apply IH, foldl_exposePermission_NoDup.
Qed.


Example getExposedPorts_overlapping :
  PublicInstanceAnalyzer.getExposedPorts mockEC2Client ["sg-a"; "sg-b"]
    [ResolvesSecurityGroups overlappingGroups]
  = (Returns [53; 443; 444; 445; 446], []).
Proof. by vm_compute. Qed.

Example getExposedPorts_no_groups :
  PublicInstanceAnalyzer.getExposedPorts mockEC2Client []
    [ResolvesSecurityGroups overlappingGroups]
  = (Returns [], [ResolvesSecurityGroups overlappingGroups]).
Proof. reflexivity. Qed.

(** ** Unused security groups *)

Lemma foldl_unusedStep used rule (groups : list SecurityGroup.t)
    (acc : list SecurityFinding.t) :
  foldl (unusedStep used rule) acc groups
  = acc ++ foldl (unusedStep used rule) [] groups.
Proof.
  revert acc. induction groups as [|sg groups IH]; intros acc; simpl.
  - by rewrite app_nil_r.
  - rewrite IH, (IH (unusedStep used rule [] sg)), app_assoc. f_equal.
    unfold unusedStep. repeat case_match; by rewrite ?app_nil_r.
Qed.


Lemma truthy_Some (s : string) : truthy (Some s) = true ↔ s ≠ "".
Proof.
  unfold truthy. rewrite negb_true_iff, bool_decide_eq_false. done.
Qed.

(** The active set holds the non-empty group ids attached to some
    instance of the response. *)
Lemma usedSecurityGroupsOf_spec (instancesResponse : DescribeInstancesResult)
    (groupId : string) :
  groupId ∈ usedSecurityGroupsOf instancesResponse
  ↔ groupId ≠ ""
    ∧ ∃ reservation instance sg,
        reservation ∈ default [] (Reservations instancesResponse)
        ∧ instance ∈ default [] (Instances reservation)
        ∧ sg ∈ default [] (Instance.SecurityGroups instance)
        ∧ GroupIdentifier.GroupId sg = Some groupId.
Proof.
  unfold usedSecurityGroupsOf.
  set (inner := λ (used : gset string) (sg : GroupIdentifier.t), _).
  assert (Hinner : ∀ sgs used,
    groupId ∈ foldl inner used sgs
    ↔ groupId ∈ used
      ∨ (groupId ≠ "" ∧ ∃ sg, sg ∈ sgs ∧ GroupIdentifier.GroupId sg = Some groupId)).
  { induction sgs as [|sg sgs IH]; intros used; simpl.
    - split; [by left|]. intros [?|(_ & sg & Hsg & _)]; [done|].
      by apply elem_of_nil in Hsg.
    - rewrite IH. unfold inner.
      destruct (GroupIdentifier.GroupId sg) as [g|] eqn:Hg.
      + destruct (truthy (Some g)) eqn:Ht.
        * apply truthy_Some in Ht. rewrite elem_of_union, elem_of_singleton.
          split.
          -- intros [[?| ->]|(? & sg' & ? & ?)].
             ++ by left.
             ++ right. split; [done|]. exists sg. split; [left|done].
             ++ right. split; [done|]. exists sg'. split; [by right|done].
          -- intros [?|(? & sg' & [->|?]%elem_of_cons & Hsg')].
             ++ by left; left.
             ++ left; right. congruence.
             ++ right. split; [done|]. by exists sg'.
        * assert (g = "") as ->.
          { destruct (decide (g = "")); [done|]. by apply truthy_Some in n; congruence. }
          split.
          -- intros [?|(? & sg' & ? & ?)]; [by left|].
             right. split; [done|]. exists sg'. split; [by right|done].
          -- intros [?|(? & sg' & [->|?]%elem_of_cons & Hsg')].
             ++ by left.
             ++ congruence.
             ++ right. split; [done|]. by exists sg'.
      + split.
        * intros [?|(? & sg' & ? & ?)]; [by left|].
          right. split; [done|]. exists sg'. split; [by right|done].
        * intros [?|(? & sg' & [->|?]%elem_of_cons & Hsg')].
          -- by left.
          -- congruence.
          -- right. split; [done|]. by exists sg'. }
  set (middle := λ (used : gset string) (instance : Instance.t), _).
  assert (Hmiddle : ∀ instances used,
    groupId ∈ foldl middle used instances
    ↔ groupId ∈ used
      ∨ (groupId ≠ "" ∧ ∃ instance sg,
           instance ∈ instances
           ∧ sg ∈ default [] (Instance.SecurityGroups instance)
           ∧ GroupIdentifier.GroupId sg = Some groupId)).
  { induction instances as [|instance instances IH]; intros used; simpl.
    - split; [by left|]. intros [?|(_ & i & sg & Hi & _)]; [done|].
      by apply elem_of_nil in Hi.
    - rewrite IH. unfold middle. rewrite Hinner. split.
      + intros [[?|(? & sg & ? & ?)]|(? & i & sg & ? & ? & ?)].
        * by left.
        * right. split; [done|]. exists instance, sg. split_and!; [left|done|done].
        * right. split; [done|]. exists i, sg. split_and!; [by right|done|done].
      + intros [?|(? & i & sg & [->|?]%elem_of_cons & ? & ?)].
        * by left; left.
        * left; right. split; [done|]. by exists sg.
        * right. split; [done|]. by exists i, sg. }
  set (outer := λ (used : gset string) (reservation : Reservation), _).
  assert (Houter : ∀ reservations used,
    groupId ∈ foldl outer used reservations
    ↔ groupId ∈ used
      ∨ (groupId ≠ "" ∧ ∃ reservation instance sg,
           reservation ∈ reservations
           ∧ instance ∈ default [] (Instances reservation)
           ∧ sg ∈ default [] (Instance.SecurityGroups instance)
           ∧ GroupIdentifier.GroupId sg = Some groupId)).
  { induction reservations as [|reservation reservations IH]; intros used; simpl.
    - split; [by left|]. intros [?|(_ & r & i & sg & Hr & _)]; [done|].
      by apply elem_of_nil in Hr.
    - rewrite IH. unfold outer. rewrite Hmiddle. split.
      + intros [[?|(? & i & sg & ? & ? & ?)]|(? & r & i & sg & ? & ? & ? & ?)].
        * by left.
        * right. split; [done|].
          exists reservation, i, sg. split_and!; [left|done|done|done].
        * right. split; [done|].
          exists r, i, sg. split_and!; [by right|done|done|done].
      + intros [?|(? & r & i & sg & [->|?]%elem_of_cons & ? & ? & ?)].
        * by left; left.
        * left; right. split; [done|]. by exists i, sg.
        * right. split; [done|]. by exists r, i, sg. }
  rewrite Houter, elem_of_empty. naive_solver.
Qed.


(** The same happens to a group record that has no id at all. *)
Lemma unused_check_skips_missing_id :
  SecurityGroup.GroupId idlessGroup = None
  ∧ SecurityGroup.GroupName idlessGroup ≠ Some "default"
  ∧ findUnusedSecurityGroups mockRules mockEC2Client [idlessGroup]
      [ResolvesInstances noReservations]
    = (Returns [], []).
Proof. by split_and!. Qed.



(** Scenario F and the analyzer's own test, run together: the reserved
    group is passed over, the orphan is flagged once, with LOW severity. *)
Example scenario_F :
  findUnusedSecurityGroups mockRules mockEC2Client [defaultGroup; orphanGroup]
    [ResolvesInstances noReservations]
  = (Returns [ {|
       SecurityFinding.securityGroupId := "sg-unused";
       SecurityFinding.securityGroupName := "unused-sg";
       SecurityFinding.ruleId := "sg-unused";
       SecurityFinding.severity := LOW;
       SecurityFinding.description := "Security group is not attached";
       SecurityFinding.recommendation := "Remove unused";
       SecurityFinding.affectedRule := None |} ], []).
Proof. by vm_compute. Qed.

(** ** Findings cite catalog rules *)

Lemma checkDangerousPorts_single rule permission sgId sgName f :
  f ∈ checkDangerousPorts [rule] permission sgId sgName →
  SecurityFinding.ruleId f = SecurityRule.id rule.
Proof.
  unfold checkDangerousPorts.
  destruct (negb (ipv4Public permission) && negb (ipv6Public permission));
    [by intros ?%elem_of_nil|].
  simpl. destruct (isDangerousRule _ rule); simpl; [|by intros ?%elem_of_nil].
  unfold dangerousPortStep.
  destruct (FromPort permission) as [fromPort|]; [|by intros ?%elem_of_nil].
  destruct (ToPort permission) as [toPort|]; [|by intros ?%elem_of_nil].
  destruct (SecurityRule.port rule) as [rulePort|]; [|by intros ?%elem_of_nil].
  destruct ((fromPort <=? rulePort) && (rulePort <=? toPort));
    [|by intros ?%elem_of_nil].
  simpl. by intros ->%list_elem_of_singleton.
Qed.

Lemma checkDangerousPorts_cites rules permission sgId sgName :
  Forall (citesCatalog rules) (checkDangerousPorts rules permission sgId sgName).
Proof.
  assert (∀ catalog, catalog ⊆ rules →
    Forall (citesCatalog rules)
           (checkDangerousPorts catalog permission sgId sgName)) as H.
  { induction catalog as [|rule catalog IH]; intros Hsub.
    - rewrite checkDangerousPorts_nil. constructor.
    - rewrite checkDangerousPorts_cons. apply Forall_app. split.
      + apply Forall_forall. intros f Hf%checkDangerousPorts_single.
        exists rule. split; [|done]. apply Hsub. left.
      + apply IH. intros x Hx. apply Hsub. by right. }
  by apply H.
Qed.

Lemma checkWidePortRanges_cites rules permission sgId sgName :
  Forall (citesCatalog rules) (checkWidePortRanges rules permission sgId sgName).
Proof.
  unfold checkWidePortRanges.
  destruct (FromPort permission) as [fromPort|]; [|constructor].
  destruct (ToPort permission) as [toPort|]; [|constructor].
  destruct (PORT_RANGE_THRESHOLD <? toPort - fromPort); [|constructor].
  destruct (getRuleById rules "sg-wide-port-range") as [rule|] eqn:Hget;
    [|constructor].
  constructor; [|constructor].
  exists rule. split; [by eapply getRuleById_Some_elem | done].
Qed.

Lemma checkAllTrafficRules_cites rules permission sgId sgName :
  Forall (citesCatalog rules) (checkAllTrafficRules rules permission sgId sgName).
Proof.
  unfold checkAllTrafficRules.
  destruct (bool_decide (IpProtocol permission = Some "-1")); [|constructor].
  destruct (ipv4Public permission || ipv6Public permission); [|constructor].
  destruct (getRuleById rules "sg-all-traffic") as [rule|] eqn:Hget;
    [|constructor].
  constructor; [|constructor].
  exists rule. split; [by eapply getRuleById_Some_elem | done].
Qed.

Lemma foldl_analyzePermission rules sgId sgName permissions acc :
  foldl (analyzePermission rules sgId sgName) acc permissions
  = acc ++ (permissions ≫= λ permission,
              checkDangerousPorts rules permission sgId sgName
              ++ checkWidePortRanges rules permission sgId sgName
              ++ checkAllTrafficRules rules permission sgId sgName).
Proof.
  revert acc. induction permissions as [|permission permissions IH]; intros acc.
  - simpl. by rewrite app_nil_r.
  - simpl. rewrite IH. unfold analyzePermission. by rewrite <- !app_assoc.
Qed.

Lemma analyzeSecurityGroup_cites rules sg :
  Forall (citesCatalog rules) (analyzeSecurityGroup rules sg).
Proof.
  unfold analyzeSecurityGroup.
  destruct (SecurityGroup.IpPermissions sg) as [permissions|]; [|constructor].
  rewrite foldl_analyzePermission. simpl.
  apply Forall_forall. intros f (permission & Hf & _)%list_elem_of_bind.
  rewrite !elem_of_app in Hf.
  destruct Hf as [Hf|[Hf|Hf]]; revert f Hf; apply Forall_forall.
  - apply checkDangerousPorts_cites.
  - apply checkWidePortRanges_cites.
  - apply checkAllTrafficRules_cites.
Qed.

Lemma foldl_analyzeSecurityGroup rules (groups : list SecurityGroup.t) acc :
  foldl (λ findings sg, findings ++ analyzeSecurityGroup rules sg) acc groups
  = acc ++ (groups ≫= analyzeSecurityGroup rules).
Proof.
  revert acc. induction groups as [|sg groups IH]; intros acc; simpl.
  - by rewrite app_nil_r.
  - by rewrite IH, <- app_assoc.
Qed.

Lemma foldl_unusedStep_cites used rule rules (groups : list SecurityGroup.t) :
  rule ∈ rules →
  Forall (citesCatalog rules) (foldl (unusedStep used rule) [] groups).
Proof.
  intros Hin. induction groups as [|sg groups IH]; simpl; [constructor|].
  rewrite foldl_unusedStep. apply Forall_app. split; [|done].
  unfold unusedStep.
  destruct (SecurityGroup.GroupId sg) as [groupId|]; [|constructor].
  destruct (truthy (Some groupId) && _ && _); [|constructor].
  constructor; [|constructor]. by exists rule.
Qed.

(** Every finding of a completed analysis carries the id of a rule of
    the catalog. *)
Lemma analyze_cites {W} rules (ec2Client : EC2Client W) groupIds w result w' :
  analyze rules ec2Client groupIds w = (Returns result, w') →
  Forall (citesCatalog rules) (SecurityGroupAnalysisResult.findings result).
Proof.
  unfold analyze, try_catch, mbind, Async_bind, findUnusedSecurityGroups,
    mbind, Async_bind, mret, Async_ret, throw.
  destruct (describeSecurityGroups ec2Client groupIds w) as [[response|e] w1];
    [|done].
  destruct (describeInstances ec2Client w1) as [[instances|e] w2]; [|done].
  intros [= <- <-]. simpl.
  apply Forall_app. split.
  - rewrite foldl_analyzeSecurityGroup. simpl.
    apply Forall_forall. intros f (sg & Hf & _)%list_elem_of_bind.
    revert f Hf. apply Forall_forall, analyzeSecurityGroup_cites.
  - destruct (getRuleById rules "sg-unused") as [rule|] eqn:Hget; [|constructor].
    apply foldl_unusedStep_cites. by eapply getRuleById_Some_elem.
Qed.

Lemma checkWidePortRanges_missing_rule rules permission sgId sgName :
  getRuleById rules "sg-wide-port-range" = None →
  checkWidePortRanges rules permission sgId sgName = [].
Proof.
  intros Hnone. unfold checkWidePortRanges. rewrite Hnone. by repeat case_match.
Qed.

Lemma checkAllTrafficRules_missing_rule rules permission sgId sgName :
  getRuleById rules "sg-all-traffic" = None →
  checkAllTrafficRules rules permission sgId sgName = [].
Proof.
  intros Hnone. unfold checkAllTrafficRules. rewrite Hnone. by repeat case_match.
Qed.

Lemma findUnusedSecurityGroups_missing_rule {W} rules (ec2Client : EC2Client W)
    securityGroups (w : W) :
  getRuleById rules "sg-unused" = None →
  findUnusedSecurityGroups rules ec2Client securityGroups w
  = match describeInstances ec2Client w with
    | (Returns _, w') => (Returns [], w')
    | (Throws e, w') => (Throws e, w')
    end.
Proof.
  intros Hnone. unfold findUnusedSecurityGroups, mbind, Async_bind.
  rewrite Hnone. by destruct (describeInstances ec2Client w) as [[?|?] ?].
Qed.

Lemma analyze_missing_unused_rule {W} rules (ec2Client : EC2Client W) groupIds
    (w w1 w2 : W) response instancesResponse :
  getRuleById rules "sg-unused" = None →
  describeSecurityGroups ec2Client groupIds w = (Returns response, w1) →
  describeInstances ec2Client w1 = (Returns instancesResponse, w2) →
  analyze rules ec2Client groupIds w
  = (Returns {|
       SecurityGroupAnalysisResult.summary :=
         generateSummary
           (default [] (SecurityGroups response) ≫= analyzeSecurityGroup rules)
           (length (default [] (SecurityGroups response)));
       SecurityGroupAnalysisResult.findings :=
         default [] (SecurityGroups response) ≫= analyzeSecurityGroup rules |},
     w2).
Proof.
  intros Hnone Hsg Hinst.
  unfold analyze, try_catch, mbind, Async_bind, findUnusedSecurityGroups,
    mbind, Async_bind.
  rewrite Hsg, Hinst, Hnone. simpl.
  by rewrite foldl_analyzeSecurityGroup, app_nil_r.
Qed.

(** C7: when the catalog holds no rule of the id a check looks up, the
    check returns the empty list, by a plain return: on sg-wide-port-range
    and sg-all-traffic the evaluation of a permission is what the two
    other checks produce; on sg-unused the unused-group check fails only
    when its fetch fails, and a completed analysis consists of the
    findings of the permission checks.  No finding of an analysis carries
    the id of a rule the catalog lacks. *)
Theorem missing_rule_skips_category (rules : list SecurityRule.t) :
  (getRuleById rules "sg-wide-port-range" = None →
   ∀ permission sgId sgName,
     checkWidePortRanges rules permission sgId sgName = []
     ∧ analyzePermission rules sgId sgName [] permission
       = checkDangerousPorts rules permission sgId sgName
         ++ checkAllTrafficRules rules permission sgId sgName)
  ∧ (getRuleById rules "sg-all-traffic" = None →
     ∀ permission sgId sgName,
       checkAllTrafficRules rules permission sgId sgName = []
       ∧ analyzePermission rules sgId sgName [] permission
         = checkDangerousPorts rules permission sgId sgName
           ++ checkWidePortRanges rules permission sgId sgName)
  ∧ (getRuleById rules "sg-unused" = None →
     ∀ W (ec2Client : EC2Client W) groupIds (w : W),
       (∀ securityGroups,
          findUnusedSecurityGroups rules ec2Client securityGroups w
          = match describeInstances ec2Client w with
            | (Returns _, w') => (Returns [], w')
            | (Throws e, w') => (Throws e, w')
            end)
       ∧ ∀ response w1 instancesResponse w2,
           describeSecurityGroups ec2Client groupIds w = (Returns response, w1) →
           describeInstances ec2Client w1 = (Returns instancesResponse, w2) →
           let findings :=
             default [] (SecurityGroups response) ≫= analyzeSecurityGroup rules in
           analyze rules ec2Client groupIds w
           = (Returns {|
                SecurityGroupAnalysisResult.summary :=
                  generateSummary findings
                    (length (default [] (SecurityGroups response)));
                SecurityGroupAnalysisResult.findings := findings |}, w2))
  ∧ (∀ ruleId, getRuleById rules ruleId = None →
     ∀ W (ec2Client : EC2Client W) groupIds (w w' : W) result,
       analyze rules ec2Client groupIds w = (Returns result, w') →
       ∀ f, f ∈ SecurityGroupAnalysisResult.findings result →
            SecurityFinding.ruleId f ≠ ruleId).
Proof.
  split_and!.
  - intros Hnone permission sgId sgName.
    pose proof (checkWidePortRanges_missing_rule _ permission sgId sgName Hnone)
      as Hw.
    split; [done|]. unfold analyzePermission. by rewrite Hw, app_nil_r.
  - intros Hnone permission sgId sgName.
    pose proof (checkAllTrafficRules_missing_rule _ permission sgId sgName Hnone)
      as Ha.
    split; [done|]. unfold analyzePermission. by rewrite Ha, app_nil_r.
  - intros Hnone W ec2Client groupIds w. split.
    + intros securityGroups. by apply findUnusedSecurityGroups_missing_rule.
    + intros response w1 instancesResponse w2 Hsg Hinst. simpl.
      by eapply analyze_missing_unused_rule.
  - intros ruleId Hnone W ec2Client groupIds w w' result Hres f Hf Hid.
    pose proof (analyze_cites _ _ _ _ _ _ Hres) as Hall.
    rewrite Forall_forall in Hall.
    destruct (Hall f Hf) as (rule & Hin & Hrule).
    rewrite getRuleById_None in Hnone. apply (Hnone rule Hin). congruence.
Qed.

Lemma missing_rule_skips_category_witness :
  (checkWidePortRanges sshOnlyRules publicWidePermission "sg-2" "wide-range-sg" = []
   ∧ analyzePermission sshOnlyRules "sg-2" "wide-range-sg" [] publicWidePermission
     = checkDangerousPorts sshOnlyRules publicWidePermission "sg-2" "wide-range-sg"
       ++ checkAllTrafficRules sshOnlyRules publicWidePermission
            "sg-2" "wide-range-sg")
  ∧ (checkAllTrafficRules sshOnlyRules allTrafficPermission "sg-all" "all-traffic-sg"
     = []
     ∧ analyzePermission sshOnlyRules "sg-all" "all-traffic-sg" [] allTrafficPermission
       = checkDangerousPorts sshOnlyRules allTrafficPermission
           "sg-all" "all-traffic-sg"
         ++ checkWidePortRanges sshOnlyRules allTrafficPermission
              "sg-all" "all-traffic-sg")
  ∧ findUnusedSecurityGroups sshOnlyRules mockEC2Client [orphanGroup]
      [ResolvesInstances noReservations]
    = (Returns [], []).
Proof.
  destruct (missing_rule_skips_category sshOnlyRules) as (Hw & Ha & Hu & _).
  split_and!.
  - apply Hw. reflexivity.
  - apply Hw. reflexivity.
  - apply Ha. reflexivity.
  - apply Ha. reflexivity.
  - apply (proj1 (Hu eq_refl _ mockEC2Client None
                     [ResolvesInstances noReservations]) [orphanGroup]).
Defined.

(** ** Loading the catalog *)

Section LoadSecurityRules.

Variable existsSync : string → bool.
Variable readFileSync : string → Outcome string.
Variable JSON_parse : string → Outcome JsValue.
Variable DEFAULT_RULES_PATH : string.

(** Whatever the file system and the parser do, the load returns. *)
Lemma loadSecurityRules_total customPath st :
  ∃ v st',
    RulesLoader.loadSecurityRules existsSync readFileSync JSON_parse
      DEFAULT_RULES_PATH customPath st = (Returns v, st').
Proof.
  unfold RulesLoader.loadSecurityRules.
  destruct (jsTruthy _ && _); [by eexists _, _|].
  unfold try_catch.
  destruct (existsSync _); simpl; [|by eexists _, _].
  unfold mbind, Async_bind, RulesLoader.lift.
  destruct (readFileSync _) as [rulesData|e]; [|by eexists _, _].
  destruct (JSON_parse rulesData) as [rulesConfig|e]; [|by eexists _, _].
  destruct (truthy customPath); simpl;
    destruct rulesConfig; simpl; by eexists _, _.
Qed.

Lemma loadSecurityRules_no_throw customPath st e st' :
  RulesLoader.loadSecurityRules existsSync readFileSync JSON_parse
    DEFAULT_RULES_PATH customPath st ≠ (Throws e, st').
Proof.
  destruct (loadSecurityRules_total customPath st) as (v & st'' & ->). done.
Qed.

End LoadSecurityRules.

(** C8: a load that reads the catalog file (it is not answered from the
    memoized catalog) and finds the file missing, or finds contents that
    [JSON.parse] rejects, returns the empty rule list; it does not throw,
    leaves the memoized catalog as it was and writes one line to the
    error console. *)
Theorem loadSecurityRules_degrades
    (existsSync : string → bool) (readFileSync : string → Outcome string)
    (JSON_parse : string → Outcome JsValue) (DEFAULT_RULES_PATH : string)
    (customPath : option string) (st : RulesLoader.State) :
  jsTruthy (RulesLoader.cachedRules st) && negb (truthy customPath) = false →
  (existsSync (default DEFAULT_RULES_PATH customPath) = false
   ∨ ∃ rulesData e,
       existsSync (default DEFAULT_RULES_PATH customPath) = true
       ∧ readFileSync (default DEFAULT_RULES_PATH customPath) = Returns rulesData
       ∧ JSON_parse rulesData = Throws e) →
  ∃ line,
    RulesLoader.loadSecurityRules existsSync readFileSync JSON_parse
      DEFAULT_RULES_PATH customPath st
    = (Returns (JsArray []),
       {| RulesLoader.cachedRules := RulesLoader.cachedRules st;
          RulesLoader.consoleErrors := RulesLoader.consoleErrors st ++ [line] |}).
Proof.
  intros Hmiss Hbad. unfold RulesLoader.loadSecurityRules. rewrite Hmiss.
  unfold try_catch.
  destruct Hbad as [Hno|(rulesData & e & Hex & Hread & Hparse)].
  - rewrite Hno. simpl. by eexists.
  - rewrite Hex. simpl. unfold mbind, Async_bind, RulesLoader.lift.
    rewrite Hread, Hparse. by eexists.
Qed.

Lemma loadSecurityRules_degrades_witness :
  ∃ line,
    RulesLoader.loadSecurityRules testExistsSync testReadFileSync testJSON_parse
      "/app/rules/security-rules.json" (Some "/tmp/rules-test/invalid.json")
      RulesLoader.initial
    = (Returns (JsArray []),
       {| RulesLoader.cachedRules := JsNull;
          RulesLoader.consoleErrors := [] ++ [line] |}).
Proof.
  apply (loadSecurityRules_degrades testExistsSync testReadFileSync
           testJSON_parse "/app/rules/security-rules.json"
           (Some "/tmp/rules-test/invalid.json") RulesLoader.initial).
  - reflexivity.
  - right. exists "{ invalid json }", (Error "SyntaxError: Unexpected token").
    split_and!; reflexivity.
Defined.

Example loadSecurityRules_missing_file :
  RulesLoader.loadSecurityRules testExistsSync testReadFileSync testJSON_parse
    "/app/rules/security-rules.json" (Some "/nonexistent/path/rules.json")
    RulesLoader.initial
  = (Returns (JsArray []),
     {| RulesLoader.cachedRules := JsNull;
        RulesLoader.consoleErrors :=
          [ "Security rules file not found: /nonexistent/path/rules.json" ] |}).
Proof. by vm_compute. Qed.

(** With an empty catalog the analysis of the groups still runs: it
    returns, without findings, whenever both fetches succeed. *)
Lemma analyze_empty_catalog {W} (ec2Client : EC2Client W) groupIds
    (w w1 w2 : W) response instancesResponse :
  describeSecurityGroups ec2Client groupIds w = (Returns response, w1) →
  describeInstances ec2Client w1 = (Returns instancesResponse, w2) →
  analyze [] ec2Client groupIds w
  = (Returns {|
       SecurityGroupAnalysisResult.summary :=
         generateSummary [] (length (default [] (SecurityGroups response)));
       SecurityGroupAnalysisResult.findings := [] |}, w2).
Proof.
  intros Hsg Hinst.
  rewrite (analyze_missing_unused_rule [] _ _ _ _ _ _ _ eq_refl Hsg Hinst).
  assert (default [] (SecurityGroups response) ≫= analyzeSecurityGroup [] = [])
    as ->; [|done].
  destruct (default [] (SecurityGroups response) ≫= analyzeSecurityGroup [])
    as [|f fs] eqn:Hf; [done|].
  assert (Forall (citesCatalog []) (f :: fs)) as Hall.
  { rewrite <- Hf. apply Forall_forall.
    intros g (sg & Hg & _)%list_elem_of_bind.
    revert g Hg. apply Forall_forall, analyzeSecurityGroup_cites. }
  apply Forall_cons in Hall as [(rule & Hin & _) _]. by apply elem_of_nil in Hin.
Qed.

(** ** The analyze_security_groups tool *)

(** A completed analysis is the findings of the permission checks over
    the fetched groups, followed by what the unused-group check returns. *)
Lemma analyze_findings {W} rules (ec2Client : EC2Client W) groupIds
    (w w' : W) result :
  analyze rules ec2Client groupIds w = (Returns result, w') →
  ∃ response w1 unusedFindings,
    describeSecurityGroups ec2Client groupIds w = (Returns response, w1)
    ∧ findUnusedSecurityGroups rules ec2Client
        (default [] (SecurityGroups response)) w1
      = (Returns unusedFindings, w')
    ∧ SecurityGroupAnalysisResult.findings result
      = (default [] (SecurityGroups response) ≫= analyzeSecurityGroup rules)
        ++ unusedFindings.
Proof.
  unfold analyze, try_catch, mbind, Async_bind.
  destruct (describeSecurityGroups ec2Client groupIds w) as [[response|e] w1];
    [|done].
  destruct (findUnusedSecurityGroups rules ec2Client _ w1)
    as [[unusedFindings|e] w2] eqn:Hun; [|done].
  intros [= <- <-]. exists response, w1, unusedFindings.
  split_and!; try done.
  cbn [SecurityGroupAnalysisResult.findings].
  by rewrite foldl_analyzeSecurityGroup.
Qed.

Section Execute.

Context {W : Type}.
Variable issueMessage : SecurityGroupTool.ZodIssue → string.
Variable zodErrorMessage : list SecurityGroupTool.ZodIssue → string.
Variable ec2Client : EC2Client W.
Variable getRegion : string.
Variable rules : list SecurityRule.t.
Variable toISOString_now : W → string.

(** What a successful run of the tool returns comes from a successful
    analysis. *)
Lemma execute_Returns input (w w' : W) output :
  SecurityGroupTool.execute issueMessage zodErrorMessage ec2Client getRegion
    rules toISOString_now input w = (Returns output, w') →
  ∃ validatedInput result,
    SecurityGroupTool.SecurityGroupAnalysisSchema_parse
      issueMessage zodErrorMessage input w = (Returns validatedInput, w)
    ∧ analyze rules ec2Client (SecurityGroupTool.groupIds validatedInput) w
      = (Returns result, w')
    ∧ SecurityGroupTool.findings output
      = SecurityGroupAnalysisResult.findings result.
Proof.
  unfold SecurityGroupTool.execute, try_catch, mbind, Async_bind.
  destruct (SecurityGroupTool.SecurityGroupAnalysisSchema_parse _ _ input w)
    as [[validatedInput|e] w0] eqn:Hparse; [|by destruct e].
  assert (w0 = w) as ->.
  { unfold SecurityGroupTool.SecurityGroupAnalysisSchema_parse in Hparse.
    unfold throw, mret, Async_ret in Hparse.
    destruct input; try by simplify_eq.
    destruct (SecurityGroupTool.parseOptionalString _) as [i1 r],
      (SecurityGroupTool.parseOptionalStringArray _) as [i2 g],
      (SecurityGroupTool.parseBooleanDefaultTrue _) as [i3 b].
    destruct ((i1 ++ i2) ++ i3); by simplify_eq. }
  destruct (analyze rules ec2Client _ w) as [[result|e] w1] eqn:Hanalyze;
    [|by destruct e].
  simpl. intros [= <- <-]. by exists validatedInput, result.
Qed.

End Execute.

(** C9: two inputs of analyze_security_groups that agree on every
    property but includeUnused, each with includeUnused true, false or
    absent, run to the same outcome from the same state: the same output
    (summary, findings, recommendations, region and timestamp) or the same
    error.  With includeUnused false, the findings of a successful run
    still end with what the unused-group check returns. *)
Theorem execute_ignores_includeUnused {W}
    (issueMessage : SecurityGroupTool.ZodIssue → string)
    (zodErrorMessage : list SecurityGroupTool.ZodIssue → string)
    (ec2Client : EC2Client W) (getRegion : string)
    (rules : list SecurityRule.t) (toISOString_now : W → string)
    (properties1 properties2 : list (string * JsValue)) (w : W) :
  (∀ key, key ≠ "includeUnused" →
          getProperty key properties1 = getProperty key properties2) →
  (getProperty "includeUnused" properties1 = JsUndefined
   ∨ ∃ b, getProperty "includeUnused" properties1 = JsBoolean b) →
  (getProperty "includeUnused" properties2 = JsUndefined
   ∨ ∃ b, getProperty "includeUnused" properties2 = JsBoolean b) →
  SecurityGroupTool.execute issueMessage zodErrorMessage ec2Client getRegion
    rules toISOString_now (JsObject properties1) w
  = SecurityGroupTool.execute issueMessage zodErrorMessage ec2Client getRegion
      rules toISOString_now (JsObject properties2) w
  ∧ (getProperty "includeUnused" properties1 = JsBoolean false →
     ∀ output w',
       SecurityGroupTool.execute issueMessage zodErrorMessage ec2Client
         getRegion rules toISOString_now (JsObject properties1) w
       = (Returns output, w') →
       ∃ groupIds response w1 unusedFindings,
         describeSecurityGroups ec2Client groupIds w = (Returns response, w1)
         ∧ findUnusedSecurityGroups rules ec2Client
             (default [] (SecurityGroups response)) w1
           = (Returns unusedFindings, w')
         ∧ SecurityGroupTool.findings output
           = (default [] (SecurityGroups response) ≫= analyzeSecurityGroup rules)
             ++ unusedFindings).
Proof.
  intros Hagree Hv1 Hv2. split.
  - unfold SecurityGroupTool.execute, try_catch, mbind, Async_bind,
      SecurityGroupTool.SecurityGroupAnalysisSchema_parse.
    rewrite (Hagree "region"), (Hagree "groupIds") by done.
    destruct (SecurityGroupTool.parseOptionalString _) as [i1 r],
      (SecurityGroupTool.parseOptionalStringArray _) as [i2 g].
    destruct Hv1 as [-> | [b1 ->]], Hv2 as [-> | [b2 ->]]; simpl;
      rewrite app_nil_r; by destruct (i1 ++ i2).
  - intros _ output w' Hrun.
    apply execute_Returns in Hrun as (validatedInput & result & _ & Hanalyze & ->).
    apply analyze_findings in Hanalyze
      as (response & w1 & unusedFindings & Hsg & Hun & ->).
    by exists (SecurityGroupTool.groupIds validatedInput), response, w1,
      unusedFindings.
Qed.

Lemma execute_ignores_includeUnused_witness :
  SecurityGroupTool.execute testIssueMessage testZodErrorMessage mockEC2Client
    "us-east-1" mockRules testClock
    (JsObject [("includeUnused", JsBoolean false)]) orphanWorld
  = SecurityGroupTool.execute testIssueMessage testZodErrorMessage mockEC2Client
      "us-east-1" mockRules testClock (JsObject []) orphanWorld
  ∧ (getProperty "includeUnused" [("includeUnused", JsBoolean false)]
     = JsBoolean false →
     ∀ output w',
       SecurityGroupTool.execute testIssueMessage testZodErrorMessage
         mockEC2Client "us-east-1" mockRules testClock
         (JsObject [("includeUnused", JsBoolean false)]) orphanWorld
       = (Returns output, w') →
       ∃ groupIds response w1 unusedFindings,
         describeSecurityGroups mockEC2Client groupIds orphanWorld
         = (Returns response, w1)
         ∧ findUnusedSecurityGroups mockRules mockEC2Client
             (default [] (SecurityGroups response)) w1
           = (Returns unusedFindings, w')
         ∧ SecurityGroupTool.findings output
           = (default [] (SecurityGroups response)
                ≫= analyzeSecurityGroup mockRules)
             ++ unusedFindings).
Proof.
  apply (execute_ignores_includeUnused testIssueMessage testZodErrorMessage
           mockEC2Client "us-east-1" mockRules testClock
           [("includeUnused", JsBoolean false)] [] orphanWorld).
  - intros key Hkey. simpl. by rewrite bool_decide_eq_false_2.
  - right. exists false. reflexivity.
  - left. reflexivity.
Defined.

(** The unattached group is reported although the caller asked for
    [includeUnused: false]. *)
Example execute_includeUnused_false :
  SecurityGroupTool.findings <$>
    match SecurityGroupTool.execute testIssueMessage testZodErrorMessage
            mockEC2Client "us-east-1" mockRules testClock
            (JsObject [("includeUnused", JsBoolean false)]) orphanWorld with
    | (Returns output, _) => Some output
    | (Throws _, _) => None
    end
  = Some [ {|
      SecurityFinding.securityGroupId := "sg-unused";
      SecurityFinding.securityGroupName := "unused-sg";
      SecurityFinding.ruleId := "sg-unused";
      SecurityFinding.severity := LOW;
      SecurityFinding.description := "Security group is not attached";
      SecurityFinding.recommendation := "Remove unused";
      SecurityFinding.affectedRule := None |} ].
Proof. by vm_compute. Qed.

(** ** Public instances *)

Section PublicInstances.

Context {W : Type}.
Variable ec2Client : EC2Client W.

Hypothesis describeSecurityGroups_succeeds :
  ∀ securityGroupIds (w : W), ∃ response w',
    describeSecurityGroups ec2Client (Some securityGroupIds) w
    = (Returns response, w').




End PublicInstances.

Lemma foldl_allInstances (reservations : list Reservation)
    (allInstances : list Instance.t) :
  foldl (λ allInstances reservation,
           allInstances ++ default [] (Instances reservation))
        allInstances reservations
  = allInstances
    ++ (reservations ≫= λ reservation, default [] (Instances reservation)).
Proof.
  revert allInstances.
  induction reservations as [|reservation reservations IH]; intros acc; simpl.
  - by rewrite app_nil_r.
  - by rewrite IH, <- app_assoc.
Qed.



(** The analyzer's test of stopped instances: the stopped instance has a
    public IP address, is left out of the list and is counted in
    totalInstances. *)
Example stopped_instance_not_listed :
  PublicInstanceAnalyzer.analyze
    (steadyEC2Client stoppedTestInstances stoppedTestGroups) ()
  = (Returns {|
       PublicInstanceAnalysisResult.summary := {|
         totalInstances := 2;
         publicInstances := 1;
         totalExposedPorts := 0 |};
       PublicInstanceAnalysisResult.instances := [ {|
         instanceId := "i-running";
         publicIp := "1.1.1.1";
         securityGroups := ["sg-1"];
         exposedPorts := [];
         riskLevel := LOW;
         recommendations := [] |} ] |}, ()).
Proof. by vm_compute. Qed.

(** * Further properties of the code *)

(** ** The permission checks, characterised *)

Lemma foldl_dangerousPortStep_elem_of permission sgId sgName protocol
    publicSource (candidates : list SecurityRule.t) (f : SecurityFinding.t) :
  f ∈ foldl (dangerousPortStep permission sgId sgName protocol publicSource)
        [] candidates
  ↔ ∃ rule fromPort toPort rulePort,
      rule ∈ candidates
      ∧ FromPort permission = Some fromPort
      ∧ ToPort permission = Some toPort
      ∧ SecurityRule.port rule = Some rulePort
      ∧ fromPort ≤ rulePort ≤ toPort
      ∧ f = {|
          SecurityFinding.securityGroupId := sgId;
          SecurityFinding.securityGroupName := sgName;
          SecurityFinding.ruleId := SecurityRule.id rule;
          SecurityFinding.severity := SecurityRule.severity rule;
          SecurityFinding.description := SecurityRule.description rule;
          SecurityFinding.recommendation := SecurityRule.recommendation rule;
          SecurityFinding.affectedRule := Some {|
            affectedPort := PortNumber rulePort;
            affectedProtocol := protocol;
            affectedSource := publicSource |} |}.
Proof.
  induction candidates as [|rule candidates IH]; simpl.
  - split; [by intros ?%elem_of_nil|].
    intros (rule & ? & ? & ? & Hin & _). by apply elem_of_nil in Hin.
  - rewrite foldl_dangerousPortStep, elem_of_app, IH. clear IH. split.
    + intros [Hf|(r & a & b & c & Hin & ?)].
      * unfold dangerousPortStep in Hf.
        destruct (FromPort permission) as [fromPort|] eqn:Hfrom;
          [|by apply elem_of_nil in Hf].
        destruct (ToPort permission) as [toPort|] eqn:Hto;
          [|by apply elem_of_nil in Hf].
        destruct (SecurityRule.port rule) as [rulePort|] eqn:Hport;
          [|by apply elem_of_nil in Hf].
        destruct ((fromPort <=? rulePort) && (rulePort <=? toPort)) eqn:Hin;
          [|by apply elem_of_nil in Hf].
        apply andb_true_iff in Hin as [?%Z.leb_le ?%Z.leb_le].
        apply list_elem_of_singleton in Hf.
        exists rule, fromPort, toPort, rulePort.
        split_and!; try done. apply elem_of_cons. by left.
      * exists r, a, b, c. split; [apply elem_of_cons; by right|done].
    + intros (r & a & b & c & [->|Hin]%elem_of_cons & Hfrom & Hto & Hport & Hrange & ->).
      * left. unfold dangerousPortStep. rewrite Hfrom, Hto, Hport.
        destruct Hrange as [?%Z.leb_le ?%Z.leb_le].
        rewrite H, H0. simpl. by apply list_elem_of_singleton.
      * right. by exists r, a, b, c.
Qed.

(** X1: the findings of the dangerous-port check are exactly the ones a
    catalog rule fires: the permission is publicly exposed, both ports are
    defined, the rule declares a port within them, the source 0.0.0.0/0 and
    the permission's protocol. *)
Theorem checkDangerousPorts_elem_of rules permission sgId sgName
    (f : SecurityFinding.t) :
  f ∈ checkDangerousPorts rules permission sgId sgName
  ↔ ipv4Public permission || ipv6Public permission = true
    ∧ ∃ rule fromPort toPort rulePort,
        rule ∈ rules
        ∧ FromPort permission = Some fromPort
        ∧ ToPort permission = Some toPort
        ∧ SecurityRule.port rule = Some rulePort
        ∧ SecurityRule.source rule = Some "0.0.0.0/0"
        ∧ SecurityRule.protocol rule
          = Some (default "unknown" (IpProtocol permission))
        ∧ fromPort ≤ rulePort ≤ toPort
        ∧ f = {|
            SecurityFinding.securityGroupId := sgId;
            SecurityFinding.securityGroupName := sgName;
            SecurityFinding.ruleId := SecurityRule.id rule;
            SecurityFinding.severity := SecurityRule.severity rule;
            SecurityFinding.description := SecurityRule.description rule;
            SecurityFinding.recommendation := SecurityRule.recommendation rule;
            SecurityFinding.affectedRule := Some {|
              affectedPort := PortNumber rulePort;
              affectedProtocol := default "unknown" (IpProtocol permission);
              affectedSource :=
                if ipv4Public permission then "0.0.0.0/0" else "::/0" |} |}.
Proof.
  unfold checkDangerousPorts.
  destruct (ipv4Public permission || ipv6Public permission) eqn:Hpub.
  - rewrite public_negb by done.
    rewrite foldl_dangerousPortStep_elem_of. split.
    + intros (rule & a & b & c & Hin & Hfrom & Hto & Hport & Hrange & ->).
      apply list_elem_of_In, filter_In in Hin as [Hin Hd].
      unfold isDangerousRule in Hd.
      apply andb_true_iff in Hd as [Hd Hproto%bool_decide_eq_true].
      apply andb_true_iff in Hd as [_ Hsrc%bool_decide_eq_true].
      split; [done|]. exists rule, a, b, c. destruct Hrange.
      split_and!; try done. by apply list_elem_of_In.
    + intros (_ & rule & a & b & c & Hin & Hfrom & Hto & Hport & Hsrc & Hproto
              & Hrange & ->).
      exists rule, a, b, c. split_and!; try done; try lia.
      apply list_elem_of_In, filter_In. split; [by apply list_elem_of_In|].
      unfold isDangerousRule. rewrite Hport, Hsrc, Hproto.
      by rewrite !bool_decide_eq_true_2.
  - assert (negb (ipv4Public permission) && negb (ipv6Public permission) = true)
      as -> by by destruct (ipv4Public permission), (ipv6Public permission).
    split; [by intros ?%elem_of_nil | by intros [? _]].
Qed.

(** X2: a permission for all protocols ("-1") that is publicly exposed
    yields, when the catalog holds a rule of id sg-all-traffic, exactly
    one all-traffic finding, built from the first such rule, with port
    and protocol "all" and the source 0.0.0.0/0 when an IPv4 range is
    public, else ::/0. *)
Theorem checkAllTrafficRules_emits rules permission sgId sgName :
  IpProtocol permission = Some "-1" →
  ipv4Public permission || ipv6Public permission = true →
  (∃ rule, rule ∈ rules ∧ SecurityRule.id rule = "sg-all-traffic") →
  ∃ allTrafficRule,
    getRuleById rules "sg-all-traffic" = Some allTrafficRule
    ∧ checkAllTrafficRules rules permission sgId sgName
      = [ {|
          SecurityFinding.securityGroupId := sgId;
          SecurityFinding.securityGroupName := sgName;
          SecurityFinding.ruleId := "sg-all-traffic";
          SecurityFinding.severity := SecurityRule.severity allTrafficRule;
          SecurityFinding.description := SecurityRule.description allTrafficRule;
          SecurityFinding.recommendation :=
            SecurityRule.recommendation allTrafficRule;
          SecurityFinding.affectedRule := Some {|
            affectedPort := PortString "all";
            affectedProtocol := "all";
            affectedSource :=
              if ipv4Public permission then "0.0.0.0/0" else "::/0" |} |} ].
Proof.
  intros Hproto Hpub Hin.
  destruct (getRuleById_is_Some _ _ Hin) as [rule Hget].
  exists rule. split; [done|].
  unfold checkAllTrafficRules.
  rewrite Hproto, bool_decide_eq_true_2, Hpub, Hget by done.
  by rewrite (getRuleById_Some_id _ _ _ Hget).
Qed.

Lemma checkAllTrafficRules_emits_witness :
  ∃ allTrafficRule,
    getRuleById mockRules "sg-all-traffic" = Some allTrafficRule
    ∧ checkAllTrafficRules mockRules allTrafficPermission "sg-all" "all-traffic-sg"
      = [ {|
          SecurityFinding.securityGroupId := "sg-all";
          SecurityFinding.securityGroupName := "all-traffic-sg";
          SecurityFinding.ruleId := "sg-all-traffic";
          SecurityFinding.severity := SecurityRule.severity allTrafficRule;
          SecurityFinding.description := SecurityRule.description allTrafficRule;
          SecurityFinding.recommendation :=
            SecurityRule.recommendation allTrafficRule;
          SecurityFinding.affectedRule := Some {|
            affectedPort := PortString "all";
            affectedProtocol := "all";
            affectedSource := "::/0" |} |} ].
Proof.
  apply (checkAllTrafficRules_emits mockRules allTrafficPermission
           "sg-all" "all-traffic-sg"); [reflexivity | reflexivity |].
  exists (SecurityRule.mk "sg-all-traffic" "All Traffic Allowed"
            "All traffic allowed" HIGH None None None "Restrict traffic").
  split; [|reflexivity].
  apply list_elem_of_In. right. right. right. left. reflexivity.
Defined.

(** X3: the wide-port-range check emits a finding exactly when both
    ports are defined, [toPort - fromPort] is greater than 100 and the
    catalog holds a rule of id sg-wide-port-range; a span of 101 ports
    (difference 100) is not reported. *)
Theorem checkWidePortRanges_nonempty_iff rules permission sgId sgName :
  checkWidePortRanges rules permission sgId sgName ≠ []
  ↔ ∃ fromPort toPort,
      FromPort permission = Some fromPort
      ∧ ToPort permission = Some toPort
      ∧ toPort - fromPort > 100
      ∧ ∃ rule, rule ∈ rules ∧ SecurityRule.id rule = "sg-wide-port-range".
Proof.
  unfold checkWidePortRanges, PORT_RANGE_THRESHOLD.
  destruct (FromPort permission) as [fromPort|]; [|naive_solver].
  destruct (ToPort permission) as [toPort|]; [|naive_solver].
  destruct (100 <? toPort - fromPort) eqn:Hwide.
  - apply Z.ltb_lt in Hwide.
    destruct (getRuleById rules "sg-wide-port-range") as [rule|] eqn:Hget.
    + split; [|done]. intros _. exists fromPort, toPort.
      split_and!; try done; [lia|].
      exists rule. split; [by eapply getRuleById_Some_elem
                          | by eapply getRuleById_Some_id].
    + split; [done|]. intros (? & ? & _ & _ & _ & rule & Hin & Hid).
      rewrite getRuleById_None in Hget. by destruct (Hget rule Hin).
  - apply Z.ltb_ge in Hwide. split; [done|].
    intros (a & b & [= <-] & [= <-] & ? & _). lia.
Qed.

Example wide_range_boundary :
  checkWidePortRanges mockRules
    {| FromPort := Some 8000; ToPort := Some 8100; IpProtocol := Some "tcp";
       IpRanges := Some [ {| CidrIp := Some "0.0.0.0/0" |} ];
       Ipv6Ranges := None |} "sg-1" "web" = []
  ∧ length (checkWidePortRanges mockRules
      {| FromPort := Some 8000; ToPort := Some 8101; IpProtocol := Some "tcp";
         IpRanges := Some [ {| CidrIp := Some "0.0.0.0/0" |} ];
         Ipv6Ranges := None |} "sg-1" "web") = 1%nat.
Proof. by vm_compute. Qed.

Lemma checkDangerousPorts_needs_ports rules permission sgId sgName f :
  f ∈ checkDangerousPorts rules permission sgId sgName →
  is_Some (FromPort permission) ∧ is_Some (ToPort permission).
Proof.
  unfold checkDangerousPorts.
  destruct (negb (ipv4Public permission) && negb (ipv6Public permission));
    [by intros ?%elem_of_nil|].
  intros (_ & ? & ? & _ & _ & -> & -> & _)%foldl_dangerousPortStep_elem_of.
  by split.
Qed.

(** X4: a permission that lacks [FromPort] or [ToPort] is skipped by the
    dangerous-port and the wide-port-range checks, whatever the catalog:
    its evaluation is the result of the all-traffic check alone. *)
Theorem missing_port_checks_skipped rules permission sgId sgName :
  FromPort permission = None ∨ ToPort permission = None →
  checkDangerousPorts rules permission sgId sgName = []
  ∧ checkWidePortRanges rules permission sgId sgName = []
  ∧ analyzePermission rules sgId sgName [] permission
    = checkAllTrafficRules rules permission sgId sgName.
Proof.
  intros Hmissing.
  assert (checkDangerousPorts rules permission sgId sgName = []) as Hd.
  { destruct (checkDangerousPorts rules permission sgId sgName) as [|f fs] eqn:Hf;
      [done|].
    assert (f ∈ checkDangerousPorts rules permission sgId sgName) as Hin
      by (rewrite Hf; left).
    apply checkDangerousPorts_needs_ports in Hin as [[? Hfrom] [? Hto]].
    destruct Hmissing; congruence. }
  assert (checkWidePortRanges rules permission sgId sgName = []) as Hw.
  { unfold checkWidePortRanges.
    destruct Hmissing as [-> | ->]; [done|]. by destruct (FromPort permission). }
  split_and!; try done.
  unfold analyzePermission. by rewrite Hd, Hw.
Qed.

Lemma missing_port_checks_skipped_witness :
  checkDangerousPorts mockRules allTrafficPermission "sg-all" "all-traffic-sg" = []
  ∧ checkWidePortRanges mockRules allTrafficPermission "sg-all" "all-traffic-sg"
    = []
  ∧ analyzePermission mockRules "sg-all" "all-traffic-sg" [] allTrafficPermission
    = checkAllTrafficRules mockRules allTrafficPermission
        "sg-all" "all-traffic-sg".
Proof.
  apply (missing_port_checks_skipped mockRules allTrafficPermission).
  left. reflexivity.
Defined.

(** ** Catalog lookups *)

(** X5: [getRuleById] returns the first rule of the catalog that carries
    the id; a later rule with the same id is never returned. *)
Theorem getRuleById_first_match (before : list SecurityRule.t)
    (rule : SecurityRule.t) (after : list SecurityRule.t) (ruleId : string) :
  SecurityRule.id rule = ruleId →
  (∀ earlier, earlier ∈ before → SecurityRule.id earlier ≠ ruleId) →
  getRuleById (before ++ rule :: after) ruleId = Some rule.
Proof.
  intros Hid Hbefore. unfold getRuleById.
  induction before as [|earlier before IH]; simpl.
  - by rewrite bool_decide_eq_true_2.
  - rewrite bool_decide_eq_false_2.
    + apply IH. intros r Hr. apply Hbefore. by right.
    + apply Hbefore. left.
Qed.

Lemma getRuleById_first_match_witness :
  getRuleById
    ([ SecurityRule.mk "sg-ssh-world" "SSH Open to World"
         "SSH port 22 is accessible from anywhere" HIGH
         (Some 22) (Some "tcp") (Some "0.0.0.0/0") "Restrict SSH access" ]
     ++ SecurityRule.mk "sg-unused" "Unused Security Group"
          "Security group is not attached" LOW None None None "Remove unused"
        :: [ SecurityRule.mk "sg-unused" "Shadowed" "Never returned" HIGH
               None None None "None" ])
    "sg-unused"
  = Some (SecurityRule.mk "sg-unused" "Unused Security Group"
            "Security group is not attached" LOW None None None "Remove unused").
Proof.
  apply getRuleById_first_match; [reflexivity|].
  intros earlier Hin%list_elem_of_singleton. by subst.
Defined.

(** ** The analysis of the security groups *)

Lemma checkDangerousPorts_built rules permission sgId sgName :
  Forall (builtFromCatalog rules)
         (checkDangerousPorts rules permission sgId sgName).
Proof.
  apply Forall_forall. intros f Hf. unfold checkDangerousPorts in Hf.
  destruct (negb (ipv4Public permission) && negb (ipv6Public permission));
    [by apply elem_of_nil in Hf|].
  apply foldl_dangerousPortStep_elem_of in Hf
    as (rule & ? & ? & ? & Hin & _ & _ & _ & _ & ->).
  apply list_elem_of_In, filter_In in Hin as [Hin%list_elem_of_In _].
  by exists rule.
Qed.

Lemma checkWidePortRanges_built rules permission sgId sgName :
  Forall (builtFromCatalog rules)
         (checkWidePortRanges rules permission sgId sgName).
Proof.
  unfold checkWidePortRanges.
  destruct (FromPort permission) as [fromPort|]; [|constructor].
  destruct (ToPort permission) as [toPort|]; [|constructor].
  destruct (PORT_RANGE_THRESHOLD <? toPort - fromPort); [|constructor].
  destruct (getRuleById rules "sg-wide-port-range") as [rule|] eqn:Hget;
    [|constructor].
  constructor; [|constructor].
  exists rule. split; [by eapply getRuleById_Some_elem | done].
Qed.

Lemma checkAllTrafficRules_built rules permission sgId sgName :
  Forall (builtFromCatalog rules)
         (checkAllTrafficRules rules permission sgId sgName).
Proof.
  unfold checkAllTrafficRules.
  destruct (bool_decide (IpProtocol permission = Some "-1")); [|constructor].
  destruct (ipv4Public permission || ipv6Public permission); [|constructor].
  destruct (getRuleById rules "sg-all-traffic") as [rule|] eqn:Hget;
    [|constructor].
  constructor; [|constructor].
  exists rule. split; [by eapply getRuleById_Some_elem | done].
Qed.

Lemma analyzeSecurityGroup_built rules sg :
  Forall (builtFromCatalog rules) (analyzeSecurityGroup rules sg).
Proof.
  unfold analyzeSecurityGroup.
  destruct (SecurityGroup.IpPermissions sg) as [permissions|]; [|constructor].
  rewrite foldl_analyzePermission. simpl.
  apply Forall_forall. intros f (permission & Hf & _)%list_elem_of_bind.
  rewrite !elem_of_app in Hf.
  destruct Hf as [Hf|[Hf|Hf]]; revert f Hf; apply Forall_forall.
  - apply checkDangerousPorts_built.
  - apply checkWidePortRanges_built.
  - apply checkAllTrafficRules_built.
Qed.

Lemma foldl_unusedStep_built used rule rules (groups : list SecurityGroup.t) :
  rule ∈ rules →
  Forall (builtFromCatalog rules) (foldl (unusedStep used rule) [] groups).
Proof.
  intros Hin. induction groups as [|sg groups IH]; simpl; [constructor|].
  rewrite foldl_unusedStep. apply Forall_app. split; [|done].
  unfold unusedStep.
  destruct (SecurityGroup.GroupId sg) as [groupId|]; [|constructor].
  destruct (truthy (Some groupId) && _ && _); [|constructor].
  constructor; [|constructor]. by exists rule.
Qed.

(** X6: every finding of a completed analysis takes its rule id, its
    severity and its recommendation from one rule of the catalog; the
    analysis invents no severity of its own. *)
Theorem analyze_findings_from_catalog {W} rules (ec2Client : EC2Client W)
    groupIds (w w' : W) result :
  analyze rules ec2Client groupIds w = (Returns result, w') →
  ∀ f, f ∈ SecurityGroupAnalysisResult.findings result →
    ∃ rule,
      rule ∈ rules
      ∧ SecurityFinding.ruleId f = SecurityRule.id rule
      ∧ SecurityFinding.severity f = SecurityRule.severity rule
      ∧ SecurityFinding.recommendation f = SecurityRule.recommendation rule.
Proof.
  intros Hrun.
  apply analyze_findings in Hrun
    as (response & w1 & unusedFindings & _ & Hunused & ->).
  intros f [Hf|Hf]%elem_of_app.
  - apply list_elem_of_bind in Hf as (sg & Hf & _).
    revert f Hf. apply Forall_forall, analyzeSecurityGroup_built.
  - revert Hunused. unfold findUnusedSecurityGroups. unfold_async.
    destruct (describeInstances ec2Client w1) as [[instancesResponse|e] w2];
      [|done].
    intros [= <- <-].
    destruct (getRuleById rules "sg-unused") as [rule|] eqn:Hget;
      [|by apply elem_of_nil in Hf].
    revert f Hf. apply Forall_forall, foldl_unusedStep_built.
    by eapply getRuleById_Some_elem.
Qed.

Lemma analyze_findings_from_catalog_witness :
  ∃ rule,
    rule ∈ mockRules
    ∧ "sg-unused" = SecurityRule.id rule
    ∧ LOW = SecurityRule.severity rule
    ∧ "Remove unused" = SecurityRule.recommendation rule.
Proof.
  apply (analyze_findings_from_catalog mockRules mockEC2Client None
           orphanWorld []
           {| SecurityGroupAnalysisResult.summary :=
                {| totalGroups := 1; highRiskFindings := 0;
                   mediumRiskFindings := 0; lowRiskFindings := 1 |};
              SecurityGroupAnalysisResult.findings := [ {|
                SecurityFinding.securityGroupId := "sg-unused";
                SecurityFinding.securityGroupName := "unused-sg";
                SecurityFinding.ruleId := "sg-unused";
                SecurityFinding.severity := LOW;
                SecurityFinding.description := "Security group is not attached";
                SecurityFinding.recommendation := "Remove unused";
                SecurityFinding.affectedRule := None |} ] |}
           eq_refl
           {| SecurityFinding.securityGroupId := "sg-unused";
              SecurityFinding.securityGroupName := "unused-sg";
              SecurityFinding.ruleId := "sg-unused";
              SecurityFinding.severity := LOW;
              SecurityFinding.description := "Security group is not attached";
              SecurityFinding.recommendation := "Remove unused";
              SecurityFinding.affectedRule := None |}).
  left.
Defined.

Lemma countSeverity_partition (findings : list SecurityFinding.t) :
  (countSeverity HIGH findings + countSeverity MEDIUM findings
   + countSeverity LOW findings = length findings)%nat.
Proof.
  unfold countSeverity.
  induction findings as [|f findings IH]; simpl; [done|].
  destruct (SecurityFinding.severity f); simpl; lia.
Qed.

(** X7: the summary of a completed analysis agrees with its findings:
    the three severity counts add up to the number of findings, and
    totalGroups is the number of groups the service returned. *)
Theorem analyze_summary_consistent {W} rules (ec2Client : EC2Client W)
    groupIds (w w' : W) result :
  analyze rules ec2Client groupIds w = (Returns result, w') →
  (highRiskFindings (SecurityGroupAnalysisResult.summary result)
   + mediumRiskFindings (SecurityGroupAnalysisResult.summary result)
   + lowRiskFindings (SecurityGroupAnalysisResult.summary result)
   = length (SecurityGroupAnalysisResult.findings result))%nat
  ∧ ∃ response w1,
      describeSecurityGroups ec2Client groupIds w = (Returns response, w1)
      ∧ totalGroups (SecurityGroupAnalysisResult.summary result)
        = length (default [] (SecurityGroups response)).
Proof.
  unfold analyze. unfold_async.
  destruct (describeSecurityGroups ec2Client groupIds w) as [[response|e] w1];
    [|done].
  destruct (findUnusedSecurityGroups rules ec2Client _ w1)
    as [[unusedFindings|e] w2]; [|done].
  intros [= <- <-]. split.
  - apply countSeverity_partition.
  - by exists response, w1.
Qed.

Lemma analyze_summary_consistent_witness :
  (highRiskFindings {| totalGroups := 1; highRiskFindings := 0;
                       mediumRiskFindings := 0; lowRiskFindings := 1 |}
   + mediumRiskFindings {| totalGroups := 1; highRiskFindings := 0;
                           mediumRiskFindings := 0; lowRiskFindings := 1 |}
   + lowRiskFindings {| totalGroups := 1; highRiskFindings := 0;
                        mediumRiskFindings := 0; lowRiskFindings := 1 |}
   = length [ {|
       SecurityFinding.securityGroupId := "sg-unused";
       SecurityFinding.securityGroupName := "unused-sg";
       SecurityFinding.ruleId := "sg-unused";
       SecurityFinding.severity := LOW;
       SecurityFinding.description := "Security group is not attached";
       SecurityFinding.recommendation := "Remove unused";
       SecurityFinding.affectedRule := None |} ])%nat
  ∧ ∃ response w1,
      describeSecurityGroups mockEC2Client None orphanWorld
      = (Returns response, w1)
      ∧ 1%nat = length (default [] (SecurityGroups response)).
Proof.
  apply (analyze_summary_consistent mockRules mockEC2Client None orphanWorld []
           {| SecurityGroupAnalysisResult.summary :=
                {| totalGroups := 1; highRiskFindings := 0;
                   mediumRiskFindings := 0; lowRiskFindings := 1 |};
              SecurityGroupAnalysisResult.findings := [ {|
                SecurityFinding.securityGroupId := "sg-unused";
                SecurityFinding.securityGroupName := "unused-sg";
                SecurityFinding.ruleId := "sg-unused";
                SecurityFinding.severity := LOW;
                SecurityFinding.description := "Security group is not attached";
                SecurityFinding.recommendation := "Remove unused";
                SecurityFinding.affectedRule := None |} ] |}).
  reflexivity.
Defined.

(** X8: a failed fetch aborts the analysis of the security groups with
    one error, "Security group analysis failed: " followed by the message
    of the cause ("Unknown error" when the cause is not an Error).  When
    the fetch of the groups fails the instances are not requested; when
    the fetch of the instances fails the findings already computed for
    the permissions are dropped. *)
Theorem analyze_fetch_failure {W} rules (ec2Client : EC2Client W)
    groupIds (w w' : W) (cause : Thrown) :
  describeSecurityGroups ec2Client groupIds w = (Throws cause, w')
  ∨ (∃ response w1,
       describeSecurityGroups ec2Client groupIds w = (Returns response, w1)
       ∧ describeInstances ec2Client w1 = (Throws cause, w')) →
  analyze rules ec2Client groupIds w
  = (Throws (Error ("Security group analysis failed: " +:+ messageOf cause)), w').
Proof.
  unfold analyze, findUnusedSecurityGroups. unfold_async.
  intros [-> | (response & w1 & -> & ->)]; reflexivity.
Qed.

Lemma analyze_fetch_failure_witness :
  analyze mockRules mockEC2Client None halfFailingWorld
  = (Throws (Error ("Security group analysis failed: "
                    +:+ messageOf (Error "DescribeInstances failed"))), []).
Proof.
  apply (analyze_fetch_failure mockRules mockEC2Client None halfFailingWorld []
           (Error "DescribeInstances failed")).
  right.
  exists {| SecurityGroups := Some [orphanGroup] |},
    [ Rejects (Error "DescribeInstances failed") ].
  split; reflexivity.
Defined.

(** X9: the set of attached groups built by the unused-group check holds
    exactly the non-empty group ids listed on some instance of some
    reservation of the response; references without an id and empty ids
    are passed over. *)
Theorem usedSecurityGroups_exact (instancesResponse : DescribeInstancesResult)
    (groupId : string) :
  groupId ∈ usedSecurityGroupsOf instancesResponse
  ↔ groupId ≠ ""
    ∧ ∃ reservation instance sg,
        reservation ∈ default [] (Reservations instancesResponse)
        ∧ instance ∈ default [] (Instances reservation)
        ∧ sg ∈ default [] (Instance.SecurityGroups instance)
        ∧ GroupIdentifier.GroupId sg = Some groupId.
Proof. apply usedSecurityGroupsOf_spec. Qed.

(** ** The analyze_security_groups tool: failures *)

Section ExecuteFailures.

Context {W : Type}.
Variable issueMessage : SecurityGroupTool.ZodIssue → string.
Variable zodErrorMessage : list SecurityGroupTool.ZodIssue → string.
Variable ec2Client : EC2Client W.
Variable getRegion : string.
Variable rules : list SecurityRule.t.
Variable toISOString_now : W → string.

(** The schema either accepts the input or throws a ZodError with at
    least one issue; it never touches the remote service. *)
Lemma SecurityGroupAnalysisSchema_parse_cases input (w : W) :
  (∃ validatedInput,
     SecurityGroupTool.SecurityGroupAnalysisSchema_parse
       issueMessage zodErrorMessage input w = (Returns validatedInput, w))
  ∨ (∃ issue issues,
       SecurityGroupTool.SecurityGroupAnalysisSchema_parse
         issueMessage zodErrorMessage input w
       = (Throws (ZodError (issueMessage <$> (issue :: issues))
                           (zodErrorMessage (issue :: issues))), w)).
Proof.
  unfold SecurityGroupTool.SecurityGroupAnalysisSchema_parse.
  destruct input; try (right; by eexists _, _).
  destruct (SecurityGroupTool.parseOptionalString _) as [i1 r],
    (SecurityGroupTool.parseOptionalStringArray _) as [i2 g],
    (SecurityGroupTool.parseBooleanDefaultTrue _) as [i3 b].
  destruct ((i1 ++ i2) ++ i3) as [|issue issues].
  - left. by eexists.
  - right. by eexists _, _.
Qed.

End ExecuteFailures.

(** X10: an input that is not an object, or whose region is neither
    absent nor a string, or whose groupIds is neither absent nor an
    array, or whose includeUnused is neither absent nor a boolean, is
    rejected with the error "Input validation failed: " followed by the
    messages of the issues, before anything is asked of the remote
    service: its state is untouched. *)
Theorem execute_rejects_invalid_input {W}
    (issueMessage : SecurityGroupTool.ZodIssue → string)
    (zodErrorMessage : list SecurityGroupTool.ZodIssue → string)
    (ec2Client : EC2Client W) (getRegion : string)
    (rules : list SecurityRule.t) (toISOString_now : W → string)
    (input : JsValue) (w : W) :
  (∀ properties, input ≠ JsObject properties)
  ∨ (∃ properties,
       input = JsObject properties
       ∧ ((getProperty "region" properties ≠ JsUndefined
           ∧ ∀ s, getProperty "region" properties ≠ JsString s)
          ∨ (getProperty "groupIds" properties ≠ JsUndefined
             ∧ ∀ items, getProperty "groupIds" properties ≠ JsArray items)
          ∨ (getProperty "includeUnused" properties ≠ JsUndefined
             ∧ ∀ b, getProperty "includeUnused" properties ≠ JsBoolean b))) →
  ∃ issue issues,
    SecurityGroupTool.execute issueMessage zodErrorMessage ec2Client getRegion
      rules toISOString_now input w
    = (Throws (Error ("Input validation failed: "
                      +:+ join ", " (issueMessage <$> (issue :: issues)))), w).
Proof.
  intros Hbad.
  destruct (SecurityGroupAnalysisSchema_parse_cases issueMessage zodErrorMessage
              input w) as [[validatedInput Hok]|(issue & issues & Hzod)].
  - exfalso. revert Hok.
    unfold SecurityGroupTool.SecurityGroupAnalysisSchema_parse. unfold_async.
    destruct Hbad as [Hobj|(properties & -> & Hprop)].
    + destruct input; try done. by destruct (Hobj properties).
    + destruct (SecurityGroupTool.parseOptionalString _) as [i1 r] eqn:H1,
        (SecurityGroupTool.parseOptionalStringArray _) as [i2 g] eqn:H2,
        (SecurityGroupTool.parseBooleanDefaultTrue _) as [i3 b] eqn:H3.
      destruct ((i1 ++ i2) ++ i3) as [|issue issues] eqn:Hissues; [|done].
      intros _.
      apply app_eq_nil in Hissues as [[-> ->]%app_eq_nil ->].
      destruct Hprop as [[Hu Hs]|[[Hu Ha]|[Hu Hb]]].
      * destruct (getProperty "region" properties)
          as [| |vb|vn|vs|vitems|vprops]; simplify_eq/=;
          exfalso; first [by apply Hu | by eapply Hs].
      * destruct (getProperty "groupIds" properties)
          as [| |vb|vn|vs|vitems|vprops]; simplify_eq/=;
          exfalso; first [by apply Hu | by eapply Ha].
      * destruct (getProperty "includeUnused" properties)
          as [| |vb|vn|vs|vitems|vprops]; simplify_eq/=;
          exfalso; first [by apply Hu | by eapply Hb].
  - exists issue, issues.
    unfold SecurityGroupTool.execute. unfold_async. by rewrite Hzod.
Qed.

Lemma execute_rejects_invalid_input_witness :
  ∃ issue issues,
    SecurityGroupTool.execute testIssueMessage testZodErrorMessage mockEC2Client
      "us-east-1" mockRules testClock
      (JsObject [("groupIds", JsString "not-an-array")]) orphanWorld
    = (Throws (Error ("Input validation failed: "
                      +:+ join ", " (testIssueMessage <$> (issue :: issues)))),
       orphanWorld).
Proof.
  apply (execute_rejects_invalid_input testIssueMessage testZodErrorMessage
           mockEC2Client "us-east-1" mockRules testClock
           (JsObject [("groupIds", JsString "not-an-array")]) orphanWorld).
  right. exists [("groupIds", JsString "not-an-array")].
  split; [reflexivity|]. right. left. split; [done|]. intros items. done.
Defined.

(** X11: whatever makes the tool fail, it throws a plain Error whose
    message is either "Input validation failed: ..." (the remote state is
    then untouched) or "Security group analysis failed: Security group
    analysis failed: ...": the analyzer's prefix is repeated by the tool,
    and the branch "An unexpected error occurred" is never taken. *)
Theorem execute_failure_shape {W}
    (issueMessage : SecurityGroupTool.ZodIssue → string)
    (zodErrorMessage : list SecurityGroupTool.ZodIssue → string)
    (ec2Client : EC2Client W) (getRegion : string)
    (rules : list SecurityRule.t) (toISOString_now : W → string)
    (input : JsValue) (w w' : W) (error : Thrown) :
  SecurityGroupTool.execute issueMessage zodErrorMessage ec2Client getRegion
    rules toISOString_now input w = (Throws error, w') →
  (∃ issues,
     error = Error ("Input validation failed: " +:+ join ", " issues)
     ∧ w' = w)
  ∨ (∃ cause,
       error = Error ("Security group analysis failed: "
                      +:+ "Security group analysis failed: "
                      +:+ messageOf cause)).
Proof.
  destruct (SecurityGroupAnalysisSchema_parse_cases issueMessage zodErrorMessage
              input w) as [[validatedInput Hok]|(issue & issues & Hzod)].
  - unfold SecurityGroupTool.execute. unfold_async. rewrite Hok.
    unfold analyze. unfold_async.
    destruct (describeSecurityGroups ec2Client _ w) as [[response|e] w1].
    + destruct (findUnusedSecurityGroups rules ec2Client _ w1)
        as [[unusedFindings|e] w2]; [done|].
      intros [= <- <-]. right. by exists e.
    + intros [= <- <-]. right. by exists e.
  - unfold SecurityGroupTool.execute. unfold_async. rewrite Hzod.
    intros [= <- <-]. left. exists (issueMessage <$> issue :: issues).
    split; reflexivity.
Qed.

Lemma execute_failure_shape_witness :
  (∃ issues,
     Error "Security group analysis failed: Security group analysis failed: AWS API Error"
     = Error ("Input validation failed: " +:+ join ", " issues)
     ∧ [] = failingWorld)
  ∨ (∃ cause,
       Error "Security group analysis failed: Security group analysis failed: AWS API Error"
       = Error ("Security group analysis failed: "
                +:+ "Security group analysis failed: "
                +:+ messageOf cause)).
Proof.
  apply (execute_failure_shape testIssueMessage testZodErrorMessage
           mockEC2Client "us-east-1" mockRules testClock
           (JsObject []) failingWorld []).
  reflexivity.
Defined.

(** ** The memoized catalog *)

(** X12: a load from an explicit, non-empty path never changes the
    memoized catalog, whether the load succeeds or fails. *)
Theorem loadSecurityRules_custom_path_keeps_cache
    (existsSync : string → bool) (readFileSync : string → Outcome string)
    (JSON_parse : string → Outcome JsValue) (DEFAULT_RULES_PATH : string)
    (customPath : string) (st : RulesLoader.State) :
  customPath ≠ "" →
  RulesLoader.cachedRules
    (RulesLoader.loadSecurityRules existsSync readFileSync JSON_parse
       DEFAULT_RULES_PATH (Some customPath) st).2
  = RulesLoader.cachedRules st.
Proof.
  intros Hpath%truthy_Some.
  unfold RulesLoader.loadSecurityRules. rewrite Hpath, andb_false_r. simpl.
  unfold try_catch.
  destruct (existsSync customPath); simpl; [|done].
  unfold mbind, Async_bind, RulesLoader.lift.
  destruct (readFileSync customPath) as [rulesData|e]; [|done].
  destruct (JSON_parse rulesData) as [rulesConfig|e]; [|done].
  simpl. by destruct rulesConfig.
Qed.

Lemma loadSecurityRules_custom_path_keeps_cache_witness :
  RulesLoader.cachedRules
    (RulesLoader.loadSecurityRules shippedExistsSync shippedReadFileSync
       shippedJSON_parse "/app/rules/other.json"
       (Some "/app/rules/security-rules.json") RulesLoader.initial).2
  = RulesLoader.cachedRules RulesLoader.initial.
Proof.
  apply (loadSecurityRules_custom_path_keeps_cache shippedExistsSync
           shippedReadFileSync shippedJSON_parse "/app/rules/other.json"
           "/app/rules/security-rules.json" RulesLoader.initial).
  done.
Defined.

(** X13: a load without a path that reads a catalog object with a truthy
    [rules] property returns that property and memoizes it; from then on
    every load without a path (or with the empty path) returns the
    memoized value without looking at the file system, until
    [clearRulesCache], after which the file is consulted again. *)
Theorem loadSecurityRules_memoizes
    (existsSync : string → bool) (readFileSync : string → Outcome string)
    (JSON_parse : string → Outcome JsValue) (DEFAULT_RULES_PATH : string)
    (st : RulesLoader.State) (rulesData : string)
    (properties : list (string * JsValue)) :
  jsTruthy (RulesLoader.cachedRules st) = false →
  existsSync DEFAULT_RULES_PATH = true →
  readFileSync DEFAULT_RULES_PATH = Returns rulesData →
  JSON_parse rulesData = Returns (JsObject properties) →
  jsTruthy (getProperty "rules" properties) = true →
  let memoized :=
    {| RulesLoader.cachedRules := getProperty "rules" properties;
       RulesLoader.consoleErrors := RulesLoader.consoleErrors st |} in
  RulesLoader.loadSecurityRules existsSync readFileSync JSON_parse
    DEFAULT_RULES_PATH None st
  = (Returns (getProperty "rules" properties), memoized)
  ∧ (∀ existsSync' readFileSync' JSON_parse' DEFAULT_RULES_PATH' customPath,
       customPath = None ∨ customPath = Some "" →
       RulesLoader.loadSecurityRules existsSync' readFileSync' JSON_parse'
         DEFAULT_RULES_PATH' customPath memoized
       = (Returns (getProperty "rules" properties), memoized))
  ∧ (∀ readFileSync' JSON_parse',
       (RulesLoader.loadSecurityRules (λ _, false) readFileSync' JSON_parse'
          DEFAULT_RULES_PATH None
          (RulesLoader.clearRulesCache memoized).2).1
       = Returns (JsArray [])).
Proof.
  intros Hcold Hexists Hread Hparse Hrules memoized. split_and!.
  - unfold RulesLoader.loadSecurityRules. rewrite Hcold. simpl.
    unfold try_catch. rewrite Hexists. simpl.
    unfold mbind, Async_bind, RulesLoader.lift.
    by rewrite Hread, Hparse.
  - intros existsSync' readFileSync' JSON_parse' DEFAULT' customPath Hpath.
    unfold RulesLoader.loadSecurityRules.
    assert (truthy customPath = false) as -> by by destruct Hpath as [-> | ->].
    unfold memoized at 1 2. simpl. by rewrite Hrules.
  - intros readFileSync' JSON_parse'. reflexivity.
Qed.

Lemma loadSecurityRules_memoizes_witness :
  RulesLoader.loadSecurityRules shippedExistsSync shippedReadFileSync
    shippedJSON_parse "/app/rules/security-rules.json" None RulesLoader.initial
  = (Returns shippedRules,
     {| RulesLoader.cachedRules := shippedRules;
        RulesLoader.consoleErrors := [] |})
  ∧ (∀ existsSync' readFileSync' JSON_parse' DEFAULT_RULES_PATH' customPath,
       customPath = None ∨ customPath = Some "" →
       RulesLoader.loadSecurityRules existsSync' readFileSync' JSON_parse'
         DEFAULT_RULES_PATH' customPath
         {| RulesLoader.cachedRules := shippedRules;
            RulesLoader.consoleErrors := [] |}
       = (Returns shippedRules,
          {| RulesLoader.cachedRules := shippedRules;
             RulesLoader.consoleErrors := [] |}))
  ∧ (∀ readFileSync' JSON_parse',
       (RulesLoader.loadSecurityRules (λ _, false) readFileSync' JSON_parse'
          "/app/rules/security-rules.json" None
          (RulesLoader.clearRulesCache
             {| RulesLoader.cachedRules := shippedRules;
                RulesLoader.consoleErrors := [] |}).2).1
       = Returns (JsArray [])).
Proof.
  apply (loadSecurityRules_memoizes shippedExistsSync shippedReadFileSync
           shippedJSON_parse "/app/rules/security-rules.json"
           RulesLoader.initial "catalog" [ ("rules", shippedRules) ]);
    reflexivity.
Defined.

(** X14: a catalog file that parses to a value without a [rules] property
    (an object that lacks it, an array, a number, a string, a boolean) is
    not treated as a failure: the load returns [undefined], not the empty
    list, writes nothing to the error console and memoizes nothing
    usable. *)
Theorem loadSecurityRules_without_rules
    (existsSync : string → bool) (readFileSync : string → Outcome string)
    (JSON_parse : string → Outcome JsValue) (DEFAULT_RULES_PATH : string)
    (customPath : option string) (st : RulesLoader.State)
    (rulesData : string) (rulesConfig : JsValue) :
  jsTruthy (RulesLoader.cachedRules st) && negb (truthy customPath) = false →
  existsSync (default DEFAULT_RULES_PATH customPath) = true →
  readFileSync (default DEFAULT_RULES_PATH customPath) = Returns rulesData →
  JSON_parse rulesData = Returns rulesConfig →
  rulesConfig ≠ JsNull →
  rulesConfig ≠ JsUndefined →
  (∀ properties, rulesConfig = JsObject properties →
                 getProperty "rules" properties = JsUndefined) →
  ∃ st',
    RulesLoader.loadSecurityRules existsSync readFileSync JSON_parse
      DEFAULT_RULES_PATH customPath st
    = (Returns JsUndefined, st')
    ∧ RulesLoader.consoleErrors st' = RulesLoader.consoleErrors st
    ∧ (RulesLoader.cachedRules st' = RulesLoader.cachedRules st
       ∨ RulesLoader.cachedRules st' = JsUndefined).
Proof.
  intros Hmiss Hexists Hread Hparse Hnull Hundef Hobj.
  unfold RulesLoader.loadSecurityRules. rewrite Hmiss.
  unfold try_catch. rewrite Hexists. simpl.
  unfold mbind, Async_bind, RulesLoader.lift. rewrite Hread, Hparse.
  assert (Hget : ∀ V (w : V),
            RulesLoader.get_rules rulesConfig w = (Returns JsUndefined, w)).
  { intros V w0. destruct rulesConfig as [| |vb|vn|vs|vitems|vprops]; try done.
    simpl. by rewrite (Hobj vprops eq_refl). }
  destruct (truthy customPath); simpl; repeat (rewrite Hget; simpl);
    (eexists; split; [reflexivity|]); simpl; auto.
Qed.

Lemma loadSecurityRules_without_rules_witness :
  ∃ st',
    RulesLoader.loadSecurityRules shippedExistsSync shippedReadFileSync
      emptyObjectJSON_parse "/app/rules/security-rules.json" None
      RulesLoader.initial
    = (Returns JsUndefined, st')
    ∧ RulesLoader.consoleErrors st'
      = RulesLoader.consoleErrors RulesLoader.initial
    ∧ (RulesLoader.cachedRules st'
       = RulesLoader.cachedRules RulesLoader.initial
       ∨ RulesLoader.cachedRules st' = JsUndefined).
Proof.
  apply (loadSecurityRules_without_rules shippedExistsSync shippedReadFileSync
           emptyObjectJSON_parse "/app/rules/security-rules.json" None
           RulesLoader.initial "catalog" (JsObject [ ("version", JsNumber 1) ]));
    try reflexivity; try done.
  by intros properties [= <-].
Defined.

(** ** Risk levels and recommendations of an instance *)

(** X15: pushing further ports onto a list of exposed ports never lowers
    its risk level in the order LOW < MEDIUM < HIGH, and a list that
    receives a dangerous port is HIGH. *)
Theorem assessRisk_monotone (exposedPorts more : list Z) :
  (riskRank (PublicInstanceAnalyzer.assessRisk exposedPorts)
   ≤ riskRank (PublicInstanceAnalyzer.assessRisk (exposedPorts ++ more)))%nat
  ∧ ((∃ port, port ∈ more ∧ port ∈ DANGEROUS_PORTS) →
     PublicInstanceAnalyzer.assessRisk (exposedPorts ++ more) = HIGH).
Proof.
  unfold PublicInstanceAnalyzer.assessRisk, EXPOSED_PORTS_MEDIUM_THRESHOLD.
  rewrite existsb_app, length_app.
  pose proof (hasDangerousPorts_spec more) as Hmore.
  destruct (existsb _ exposedPorts), (existsb _ more); simpl.
  - split; [lia|done].
  - split; [lia|]. intros Hex. apply Hmore in Hex. done.
  - split; [|done]. by destruct (5 <? length exposedPorts)%nat; simpl; lia.
  - split; [|intros Hex; apply Hmore in Hex; done].
    destruct (5 <? length exposedPorts)%nat eqn:H1,
      (5 <? length exposedPorts + length more)%nat eqn:H2; simpl; try lia.
    apply Nat.ltb_lt in H1. apply Nat.ltb_ge in H2. lia.
Qed.

Lemma generateRecommendations_head (exposedPorts : list Z) :
  PublicInstanceAnalyzer.generateRecommendations exposedPorts
  = (if (0 <? length (List.filter (λ port, includes DANGEROUS_PORTS port)
                        exposedPorts))%nat
     then [ "Restrict access to dangerous ports: "
            +:+ join ", " (numToString <$>
                  List.filter (λ port, includes DANGEROUS_PORTS port)
                    exposedPorts) ]
     else [])
    ++ (if (EXPOSED_PORTS_MEDIUM_THRESHOLD <? length exposedPorts)%nat
        then [ "Consider reducing the number of exposed ports" ] else [])
    ++ (if (0 <? length exposedPorts)%nat
        then [ "Use Application Load Balancer or NAT Gateway for controlled access";
               "Consider moving to private subnet with VPN access" ]
        else []).
Proof.
  unfold PublicInstanceAnalyzer.generateRecommendations.
  destruct (0 <? length (List.filter _ exposedPorts))%nat,
    (EXPOSED_PORTS_MEDIUM_THRESHOLD <? length exposedPorts)%nat,
    (0 <? length exposedPorts)%nat; reflexivity.
Qed.

Lemma filter_dangerous_nonempty (exposedPorts : list Z) :
  (0 <? length (List.filter (λ port, includes DANGEROUS_PORTS port)
                  exposedPorts))%nat
  = existsb (λ port, includes DANGEROUS_PORTS port) exposedPorts.
Proof.
  induction exposedPorts as [|port ports IH]; [done|].
  cbn [List.filter existsb].
  by destruct (includes DANGEROUS_PORTS port).
Qed.

(** X16: the recommendations of an instance are empty exactly when no
    port is exposed; they open with the line that lists the dangerous
    ports exactly when the risk level is HIGH, and whenever a port is
    exposed they close with the load-balancer and the VPN advice. *)
Theorem generateRecommendations_shape (exposedPorts : list Z) :
  (PublicInstanceAnalyzer.generateRecommendations exposedPorts = []
   ↔ exposedPorts = [])
  ∧ (PublicInstanceAnalyzer.assessRisk exposedPorts = HIGH
     ↔ ∃ rest,
         PublicInstanceAnalyzer.generateRecommendations exposedPorts
         = ("Restrict access to dangerous ports: "
            +:+ join ", " (numToString <$>
                  List.filter (λ port, includes DANGEROUS_PORTS port)
                    exposedPorts)) :: rest)
  ∧ (exposedPorts ≠ [] →
     ∃ front,
       PublicInstanceAnalyzer.generateRecommendations exposedPorts
       = front
         ++ [ "Use Application Load Balancer or NAT Gateway for controlled access";
              "Consider moving to private subnet with VPN access" ]).
Proof.
  rewrite generateRecommendations_head, filter_dangerous_nonempty.
  unfold PublicInstanceAnalyzer.assessRisk, EXPOSED_PORTS_MEDIUM_THRESHOLD.
  split_and!.
  - destruct exposedPorts as [|port ports]; [done|]. split; [|done].
    change (0 <? length (port :: ports))%nat with true.
    intros Hnil. apply (f_equal length) in Hnil.
    rewrite !length_app in Hnil. simpl in Hnil. lia.
  - destruct (existsb _ exposedPorts).
    + split; [|done]. intros _. by eexists.
    + split; [by repeat case_match|].
      intros [rest Heq]. exfalso.
      destruct (5 <? length exposedPorts)%nat,
        (0 <? length exposedPorts)%nat; simpl in Heq; try done.
      all: by injection Heq.
  - intros Hne. destruct exposedPorts as [|port ports]; [done|].
    change (0 <? length (port :: ports))%nat with true.
    eexists (_ ++ _). by rewrite <- app_assoc.
Qed.

Lemma assessRisk_monotone_witness :
  (riskRank (PublicInstanceAnalyzer.assessRisk [443%Z])
   ≤ riskRank (PublicInstanceAnalyzer.assessRisk ([443%Z] ++ [22%Z])))%nat
  ∧ PublicInstanceAnalyzer.assessRisk ([443] ++ [22]) = HIGH.
Proof.
  destruct (assessRisk_monotone [443] [22]) as [Hle Hhigh].
  split; [exact Hle|]. apply Hhigh.
  exists 22. split; [left|]. apply includes_elem_of. reflexivity.
Defined.

Lemma generateRecommendations_shape_witness :
  ∃ front,
    PublicInstanceAnalyzer.generateRecommendations [22; 80]
    = front
      ++ [ "Use Application Load Balancer or NAT Gateway for controlled access";
           "Consider moving to private subnet with VPN access" ].
Proof.
  destruct (generateRecommendations_shape [22; 80]) as (_ & _ & Htail).
  apply Htail. done.
Defined.

(** ** The analysis of the public instances *)

Lemma getExposedPorts_sorted {W} (ec2Client : EC2Client W) securityGroupIds
    (w w' : W) ports :
  PublicInstanceAnalyzer.getExposedPorts ec2Client securityGroupIds w
  = (Returns ports, w') →
  StronglySorted Z.lt ports.
Proof.
  unfold PublicInstanceAnalyzer.getExposedPorts.
  destruct (length securityGroupIds =? 0)%nat.
  - intros [= <- <-]. constructor.
  - unfold_async.
    destruct (describeSecurityGroups ec2Client _ w) as [[response|e] w1];
      [|done].
    intros [= <- <-].
    apply StronglySorted_le_NoDup_lt; [apply sort_sorted|].
    rewrite sort_Permutation. apply foldl_groups_NoDup, NoDup_nil_2.
Qed.

Lemma analyzeInstance_consistent {W} (ec2Client : EC2Client W)
    publicInstances instance (w w' : W) out :
  PublicInstanceAnalyzer.analyzeInstance ec2Client publicInstances instance w
  = (Returns out, w') →
  ∃ own, out = publicInstances ++ own
         ∧ Forall consistentInstance own
         ∧ (length own ≤ 1)%nat.
Proof.
  unfold PublicInstanceAnalyzer.analyzeInstance.
  destruct (Instance.PublicIpAddress instance) as [publicIpAddress|].
  - destruct (truthy (Some publicIpAddress)) eqn:Hip; simpl.
    + destruct (PublicInstanceAnalyzer.isRunning instance).
      * unfold_async.
        destruct (PublicInstanceAnalyzer.getExposedPorts ec2Client _ w)
          as [[ports|e] w1] eqn:Hports; [|done].
        intros [= <- <-]. eexists [_]. split_and!; [done| |simpl; lia].
        constructor; [|constructor]. split_and!; try done.
        -- by eapply getExposedPorts_sorted.
        -- by apply truthy_Some.
      * intros [= <- <-]. exists []. rewrite app_nil_r.
    split_and!; [done | constructor | simpl; lia].
    + intros [= <- <-]. exists []. rewrite app_nil_r.
    split_and!; [done | constructor | simpl; lia].
  - intros [= <- <-]. exists []. rewrite app_nil_r.
    split_and!; [done | constructor | simpl; lia].
Qed.

Lemma for_of_analyzeInstance_consistent {W} (ec2Client : EC2Client W)
    instances publicInstances (w w' : W) out :
  for_of (PublicInstanceAnalyzer.analyzeInstance ec2Client)
    instances publicInstances w
  = (Returns out, w') →
  ∃ listed, out = publicInstances ++ listed
            ∧ Forall consistentInstance listed
            ∧ (length listed ≤ length instances)%nat.
Proof.
  revert publicInstances w.
  induction instances as [|instance instances IH]; intros acc w.
  - intros [= <- <-]. exists []. rewrite app_nil_r.
    split_and!; [done | constructor | simpl; lia].
  - simpl for_of. unfold mbind, Async_bind.
    destruct (PublicInstanceAnalyzer.analyzeInstance ec2Client acc instance w)
      as [[acc'|e] w1] eqn:Hstep; [|done].
    apply analyzeInstance_consistent in Hstep as (own & -> & Hown & Hlen).
    intros (listed & -> & Hlisted & Hlen')%IH.
    exists (own ++ listed). rewrite app_assoc. split_and!; [done| |].
    + by apply Forall_app.
    + rewrite length_app. simpl. lia.
Qed.

Lemma foldl_totalExposedPorts (instances : list PublicInstanceInfo) (sum : nat) :
  foldl (λ sum i, (sum + length (exposedPorts i))%nat) sum instances
  = (sum + sum_list_with (λ i, length (exposedPorts i)) instances)%nat.
Proof.
  revert sum. induction instances as [|i instances IH]; intros sum; simpl.
  - lia.
  - rewrite IH. lia.
Qed.

(** X17: in the result of a completed analysis of the public instances
    every listed instance carries the risk level and the recommendations
    computed from its own exposed ports, a strictly ascending list of
    ports and a non-empty public IP; publicInstances is the length of the
    list and does not exceed totalInstances, and totalExposedPorts is the
    sum of the lengths of the port lists. *)
Theorem analyze_public_instances_consistent {W} (ec2Client : EC2Client W)
    (w w' : W) result :
  PublicInstanceAnalyzer.analyze ec2Client w = (Returns result, w') →
  Forall
    (λ i, riskLevel i = PublicInstanceAnalyzer.assessRisk (exposedPorts i)
          ∧ recommendations i
            = PublicInstanceAnalyzer.generateRecommendations (exposedPorts i)
          ∧ StronglySorted Z.lt (exposedPorts i)
          ∧ publicIp i ≠ "")
    (PublicInstanceAnalysisResult.instances result)
  ∧ publicInstances (PublicInstanceAnalysisResult.summary result)
    = length (PublicInstanceAnalysisResult.instances result)
  ∧ (publicInstances (PublicInstanceAnalysisResult.summary result)
     ≤ totalInstances (PublicInstanceAnalysisResult.summary result))%nat
  ∧ totalExposedPorts (PublicInstanceAnalysisResult.summary result)
    = sum_list_with (λ i, length (exposedPorts i))
        (PublicInstanceAnalysisResult.instances result).
Proof.
  unfold PublicInstanceAnalyzer.analyze. unfold_async.
  destruct (describeInstances ec2Client w) as [[response|e] w1]; [|done].
  destruct (for_of _ _ [] w1) as [[listed|e] w2] eqn:Hloop; [|done].
  intros [= <- <-]. simpl.
  apply for_of_analyzeInstance_consistent in Hloop
    as (listed' & -> & Hall & Hlen).
  simpl. split_and!; try done.
  by rewrite foldl_totalExposedPorts.
Qed.

Lemma analyze_public_instances_consistent_witness :
  Forall
    (λ i, riskLevel i = PublicInstanceAnalyzer.assessRisk (exposedPorts i)
          ∧ recommendations i
            = PublicInstanceAnalyzer.generateRecommendations (exposedPorts i)
          ∧ StronglySorted Z.lt (exposedPorts i)
          ∧ publicIp i ≠ "")
    [ {| instanceId := "i-running"; publicIp := "1.1.1.1";
         securityGroups := ["sg-1"]; exposedPorts := [];
         riskLevel := LOW; recommendations := [] |} ]
  ∧ 1%nat = length [ {| instanceId := "i-running"; publicIp := "1.1.1.1";
                        securityGroups := ["sg-1"]; exposedPorts := [];
                        riskLevel := LOW; recommendations := [] |} ]
  ∧ (1 ≤ 2)%nat
  ∧ 0%nat = sum_list_with (λ i, length (exposedPorts i))
              [ {| instanceId := "i-running"; publicIp := "1.1.1.1";
                   securityGroups := ["sg-1"]; exposedPorts := [];
                   riskLevel := LOW; recommendations := [] |} ].
Proof.
  apply (analyze_public_instances_consistent
           (steadyEC2Client stoppedTestInstances stoppedTestGroups) () ()
           {| PublicInstanceAnalysisResult.summary := {|
                totalInstances := 2; publicInstances := 1;
                totalExposedPorts := 0 |};
              PublicInstanceAnalysisResult.instances := [ {|
                instanceId := "i-running"; publicIp := "1.1.1.1";
                securityGroups := ["sg-1"]; exposedPorts := [];
                riskLevel := LOW; recommendations := [] |} ] |}).
  reflexivity.
Defined.

Lemma for_of_analyzeInstance_skips {W} (ec2Client : EC2Client W)
    (instances : list Instance.t) publicInstances (w : W) :
  (∀ instance, instance ∈ instances → isPublicRunning instance = false) →
  for_of (PublicInstanceAnalyzer.analyzeInstance ec2Client)
    instances publicInstances w
  = (Returns publicInstances, w).
Proof.
  induction instances as [|instance instances IH]; intros Hnone; [done|].
  simpl for_of. unfold mbind, Async_bind.
  assert (PublicInstanceAnalyzer.analyzeInstance ec2Client publicInstances
            instance w = (Returns publicInstances, w)) as ->.
  { pose proof (Hnone instance ltac:(left)) as Hi.
    unfold isPublicRunning in Hi.
    unfold PublicInstanceAnalyzer.analyzeInstance.
    destruct (Instance.PublicIpAddress instance); [|done]. by rewrite Hi. }
  apply IH. intros i Hi. apply Hnone. by right.
Qed.



(** X19: when no instance of the response is both public and running,
    the analysis asks nothing more of the service after the fetch of the
    instances: it returns the empty list, with every instance counted in
    totalInstances and both other counts at zero. *)
Theorem analyze_private_fleet {W} (ec2Client : EC2Client W)
    (w w1 : W) (response : DescribeInstancesResult) :
  describeInstances ec2Client w = (Returns response, w1) →
  (∀ reservation instance,
     reservation ∈ default [] (Reservations response) →
     instance ∈ default [] (Instances reservation) →
     truthy (Instance.PublicIpAddress instance)
     && PublicInstanceAnalyzer.isRunning instance = false) →
  PublicInstanceAnalyzer.analyze ec2Client w
  = (Returns {|
       PublicInstanceAnalysisResult.summary := {|
         totalInstances :=
           length (default [] (Reservations response)
                     ≫= λ reservation, default [] (Instances reservation));
         publicInstances := 0;
         totalExposedPorts := 0 |};
       PublicInstanceAnalysisResult.instances := [] |}, w1).
Proof.
  intros Hfetch Hnone.
  unfold PublicInstanceAnalyzer.analyze. unfold_async.
  rewrite Hfetch, foldl_allInstances. simpl.
  rewrite for_of_analyzeInstance_skips; [done|].
  intros instance (reservation & Hi & Hr)%list_elem_of_bind.
  by eapply Hnone.
Qed.

Lemma analyze_private_fleet_witness :
  PublicInstanceAnalyzer.analyze mockEC2Client [ResolvesInstances privateFleet]
  = (Returns {|
       PublicInstanceAnalysisResult.summary := {|
         totalInstances :=
           length (default [] (Reservations privateFleet)
                     ≫= λ reservation, default [] (Instances reservation));
         publicInstances := 0;
         totalExposedPorts := 0 |};
       PublicInstanceAnalysisResult.instances := [] |}, []).
Proof.
  apply (analyze_private_fleet mockEC2Client [ResolvesInstances privateFleet] []
           privateFleet); [reflexivity|].
  intros reservation instance Hr Hi.
  apply list_elem_of_singleton in Hr. subst reservation.
  apply elem_of_cons in Hi as [-> | Hi]; [reflexivity|].
  apply list_elem_of_singleton in Hi. subst instance. reflexivity.
Defined.

(** ** Critical services *)

Lemma CRITICAL_PORT_MAP_lookup (port : Z) (name : string) :
  CRITICAL_PORT_MAP !! port = Some name
  ↔ (port, name) ∈ [ (22, "SSH"); (3389, "RDP"); (3306, "MySQL");
                     (5432, "PostgreSQL"); (1433, "SQL Server");
                     (6379, "Redis"); (27017, "MongoDB"); (5984, "CouchDB") ].
Proof.
  unfold CRITICAL_PORT_MAP. rewrite <- elem_of_list_to_map; [done|].
  simpl. repeat (apply NoDup_cons; split; [set_solver|]). apply NoDup_nil_2.
Qed.

Lemma CRITICAL_PORT_MAP_keys (port : Z) :
  bool_decide (is_Some (CRITICAL_PORT_MAP !! port))
  = includes DANGEROUS_PORTS port.
Proof.
  destruct (includes DANGEROUS_PORTS port) eqn:Hd.
  - apply bool_decide_eq_true. apply includes_elem_of in Hd.
    unfold DANGEROUS_PORTS in Hd.
    repeat (apply elem_of_cons in Hd as [-> | Hd]; [by eexists|]).
    by apply elem_of_nil in Hd.
  - apply bool_decide_eq_false. intros [name Hname].
    apply includes_false in Hd. apply Hd.
    apply CRITICAL_PORT_MAP_lookup in Hname.
    repeat (apply elem_of_cons in Hname as [[= -> _] | Hname];
            [apply includes_elem_of; reflexivity|]).
    by apply elem_of_nil in Hname.
Qed.

Lemma getCriticalPorts_ports (exposedPorts : list Z) :
  PublicInstanceTool.port <$> PublicInstanceTool.getCriticalPorts exposedPorts
  = List.filter (λ port, includes DANGEROUS_PORTS port) exposedPorts.
Proof.
  unfold PublicInstanceTool.getCriticalPorts.
  rewrite <- list_fmap_compose.
  rewrite (filter_ext _ _ CRITICAL_PORT_MAP_keys).
  induction (List.filter _ exposedPorts) as [|port ports IH]; [done|].
  cbn [fmap list_fmap]. f_equal. exact IH.
Qed.

Lemma getCriticalPorts_nil_iff (exposedPorts : list Z) :
  PublicInstanceTool.getCriticalPorts exposedPorts = []
  ↔ PublicInstanceAnalyzer.assessRisk exposedPorts ≠ HIGH.
Proof.
  unfold PublicInstanceAnalyzer.assessRisk.
  rewrite <- filter_dangerous_nonempty, <- getCriticalPorts_ports, length_fmap.
  destruct (PublicInstanceTool.getCriticalPorts exposedPorts); simpl.
  - split; [|done]. intros _. by case_match.
  - split; [done|]. by intros [].
Qed.

(** X20: the critical services are keyed by exactly the dangerous ports,
    so the critical ports of an instance are its exposed dangerous ports,
    in order, each with a named service (the fallback "Unknown" is never
    produced), and an instance has a critical port exactly when its risk
    level is HIGH. *)
Theorem getCriticalPorts_agrees_with_risk (exposedPorts : list Z) :
  (∀ port, is_Some (CRITICAL_PORT_MAP !! port) ↔ port ∈ DANGEROUS_PORTS)
  ∧ PublicInstanceTool.port <$> PublicInstanceTool.getCriticalPorts exposedPorts
    = List.filter (λ port, includes DANGEROUS_PORTS port) exposedPorts
  ∧ Forall (λ c, CRITICAL_PORT_MAP !! PublicInstanceTool.port c
                 = Some (PublicInstanceTool.service c)
                 ∧ PublicInstanceTool.service c ≠ "Unknown")
           (PublicInstanceTool.getCriticalPorts exposedPorts)
  ∧ (PublicInstanceTool.getCriticalPorts exposedPorts ≠ []
     ↔ PublicInstanceAnalyzer.assessRisk exposedPorts = HIGH).
Proof.
  split_and!.
  - intros port. rewrite <- includes_elem_of, <- CRITICAL_PORT_MAP_keys.
    by rewrite bool_decide_eq_true.
  - apply getCriticalPorts_ports.
  - unfold PublicInstanceTool.getCriticalPorts.
    apply Forall_fmap, Forall_forall.
    intros port [_ [name Hname]%bool_decide_eq_true]%list_elem_of_In%filter_In.
    simpl. rewrite Hname. simpl. split; [done|].
    apply CRITICAL_PORT_MAP_lookup in Hname.
    repeat (apply elem_of_cons in Hname as [[= _ ->] | Hname]; [done|]).
    by apply elem_of_nil in Hname.
  - rewrite getCriticalPorts_nil_iff.
    destruct (decide (PublicInstanceAnalyzer.assessRisk exposedPorts = HIGH));
      naive_solver.
Qed.

Example getCriticalPorts_test :
  PublicInstanceTool.getCriticalPorts [22; 80; 3306]
  = [ {| PublicInstanceTool.port := 22; PublicInstanceTool.service := "SSH" |};
      {| PublicInstanceTool.port := 3306;
         PublicInstanceTool.service := "MySQL" |} ].
Proof. by vm_compute. Qed.

Lemma countRisk_partition (instances : list PublicInstanceInfo) :
  (PublicInstanceTool.countRisk HIGH instances
   + PublicInstanceTool.countRisk MEDIUM instances
   + PublicInstanceTool.countRisk LOW instances = length instances)%nat.
Proof.
  unfold PublicInstanceTool.countRisk.
  induction instances as [|i instances IH]; simpl; [done|].
  destruct (riskLevel i); simpl; lia.
Qed.

Lemma foldl_criticalServiceExposures (instances : list PublicInstanceInfo)
    (acc : nat) :
  foldl (λ acc instance,
           (acc + length (PublicInstanceTool.getCriticalPorts
                            (exposedPorts instance)))%nat) acc instances
  = (acc + sum_list_with
             (λ i, length (PublicInstanceTool.getCriticalPorts (exposedPorts i)))
             instances)%nat.
Proof.
  revert acc. induction instances as [|i instances IH]; intros acc; simpl.
  - lia.
  - rewrite IH. lia.
Qed.

Lemma highRisk_iff_critical (instances : list PublicInstanceInfo) :
  Forall (λ i, riskLevel i = PublicInstanceAnalyzer.assessRisk (exposedPorts i))
         instances →
  (0 < PublicInstanceTool.countRisk HIGH instances)%nat
  ↔ (0 < sum_list_with
           (λ i, length (PublicInstanceTool.getCriticalPorts (exposedPorts i)))
           instances)%nat.
Proof.
  unfold PublicInstanceTool.countRisk.
  induction 1 as [|i instances Hi _ IH]; simpl; [done|].
  pose proof (getCriticalPorts_nil_iff (exposedPorts i)) as Hnil.
  rewrite <- Hi in Hnil.
  destruct (PublicInstanceTool.getCriticalPorts (exposedPorts i)) as [|c cs].
  - assert (riskLevel i ≠ HIGH) as Hne by by apply Hnil.
    rewrite bool_decide_eq_false_2 by done. simpl. exact IH.
  - assert (riskLevel i = HIGH) as ->.
    { destruct (decide (riskLevel i = HIGH)) as [|Hne]; [done|].
      by apply Hnil in Hne. }
    simpl. lia.
Qed.

(** X21: the risk assessment of the tool counts every instance once
    (highRisk + mediumRisk + lowRisk is the number of instances) and
    criticalServiceExposures is the total number of critical ports; on
    instances whose risk level is the one computed from their ports, as
    the analyzer produces them, there is a high-risk instance exactly
    when there is a critical service exposure. *)
Theorem generateRiskAssessment_consistent (instances : list PublicInstanceInfo) :
  let riskAssessment := PublicInstanceTool.generateRiskAssessment instances in
  (PublicInstanceTool.highRisk riskAssessment
   + PublicInstanceTool.mediumRisk riskAssessment
   + PublicInstanceTool.lowRisk riskAssessment = length instances)%nat
  ∧ PublicInstanceTool.criticalServiceExposures riskAssessment
    = sum_list_with
        (λ i, length (PublicInstanceTool.getCriticalPorts (exposedPorts i)))
        instances
  ∧ (Forall (λ i, riskLevel i
                  = PublicInstanceAnalyzer.assessRisk (exposedPorts i))
            instances →
     (0 < PublicInstanceTool.highRisk riskAssessment)%nat
     ↔ (0 < PublicInstanceTool.criticalServiceExposures riskAssessment)%nat).
Proof.
  simpl. rewrite foldl_criticalServiceExposures. simpl. split_and!.
  - apply countRisk_partition.
  - done.
  - apply highRisk_iff_critical.
Qed.

Lemma generateRiskAssessment_consistent_witness :
  (0 < PublicInstanceTool.highRisk
         (PublicInstanceTool.generateRiskAssessment toolTestInstances))%nat
  ↔ (0 < PublicInstanceTool.criticalServiceExposures
           (PublicInstanceTool.generateRiskAssessment toolTestInstances))%nat.
Proof.
  destruct (generateRiskAssessment_consistent toolTestInstances)
    as (_ & _ & Hiff).
  apply Hiff. repeat constructor.
Defined.

(** X22: without public instances the tool recommends exactly its two
    "no public instances" lines; otherwise its recommendations end with
    the three general lines, and nothing precedes them exactly when there
    is neither a high-risk instance nor a critical service exposure. *)
Theorem tool_generateRecommendations_shape
    (instances : list PublicInstanceInfo)
    (riskAssessment : PublicInstanceTool.RiskAssessment) :
  (instances = [] →
   PublicInstanceTool.generateRecommendations instances riskAssessment
   = [ "No public instances detected - good security posture";
       "Continue regular monitoring for new public instances" ])
  ∧ (instances ≠ [] →
     ∃ front,
       PublicInstanceTool.generateRecommendations instances riskAssessment
       = front
         ++ [ "Implement Infrastructure as Code for consistent security configurations";
              "Set up CloudWatch alerts for new public instance creation";
              "Regular security assessments should be automated" ]
       ∧ (front = []
          ↔ PublicInstanceTool.highRisk riskAssessment = 0%nat
            ∧ PublicInstanceTool.criticalServiceExposures riskAssessment
              = 0%nat)).
Proof.
  unfold PublicInstanceTool.generateRecommendations. split.
  - by intros ->.
  - intros Hne. destruct instances as [|i instances]; [done|].
    change (length (i :: instances) =? 0)%nat with false. cbv iota.
    eexists. split; [reflexivity|].
    destruct (PublicInstanceTool.highRisk riskAssessment) as [|h],
      (PublicInstanceTool.criticalServiceExposures riskAssessment) as [|c];
      simpl; naive_solver.
Qed.

Lemma tool_generateRecommendations_shape_witness :
  PublicInstanceTool.generateRecommendations []
    (PublicInstanceTool.generateRiskAssessment [])
  = [ "No public instances detected - good security posture";
      "Continue regular monitoring for new public instances" ]
  ∧ ∃ front,
      PublicInstanceTool.generateRecommendations toolTestInstances
        (PublicInstanceTool.generateRiskAssessment toolTestInstances)
      = front
        ++ [ "Implement Infrastructure as Code for consistent security configurations";
             "Set up CloudWatch alerts for new public instance creation";
             "Regular security assessments should be automated" ]
      ∧ (front = []
         ↔ PublicInstanceTool.highRisk
             (PublicInstanceTool.generateRiskAssessment toolTestInstances)
           = 0%nat
           ∧ PublicInstanceTool.criticalServiceExposures
               (PublicInstanceTool.generateRiskAssessment toolTestInstances)
             = 0%nat).
Proof.
  split.
  - apply (tool_generateRecommendations_shape []
             (PublicInstanceTool.generateRiskAssessment [])). reflexivity.
  - apply (tool_generateRecommendations_shape toolTestInstances
             (PublicInstanceTool.generateRiskAssessment toolTestInstances)).
    done.
Defined.

(** ** The registry of AWS clients *)

(** X23: [getAWSClient] builds one service per key: after any call, a
    call whose region and access key id resolve to the same two strings
    returns the service of the first call and leaves the registry as it
    is, whatever secret (or environment) the later call carries; after
    [resetAWSClient] the next call builds a service from its own
    configuration. *)
Theorem getAWSClient_memoized (env1 env2 : AWSClient.Env)
    (config1 config2 : option AWSClient.AWSClientConfig)
    (clientsByKey : gmap (string * string) AWSClient.EC2ClientConfig) :
  AWSClient.clientKey env1 config1 = AWSClient.clientKey env2 config2 →
  AWSClient.getAWSClient env2 config2
    (AWSClient.getAWSClient env1 config1 clientsByKey).2
  = AWSClient.getAWSClient env1 config1 clientsByKey
  ∧ (AWSClient.getAWSClient env2 config2
       (AWSClient.resetAWSClient
          (AWSClient.getAWSClient env1 config1 clientsByKey).2)).1
    = AWSClient.AWSClientService env2 config2.
Proof.
  intros Hkey. split.
  - unfold AWSClient.getAWSClient. rewrite <- Hkey.
    destruct (clientsByKey !! AWSClient.clientKey env1 config1) as [client|]
      eqn:Hlookup; simpl.
    + by rewrite Hlookup.
    + by rewrite lookup_insert_eq.
  - unfold AWSClient.getAWSClient, AWSClient.resetAWSClient.
    by rewrite lookup_empty.
Qed.

Lemma getAWSClient_memoized_witness :
  AWSClient.getAWSClient emptyEnv (Some secondSecretConfig)
    (AWSClient.getAWSClient emptyEnv (Some firstSecretConfig) ∅).2
  = AWSClient.getAWSClient emptyEnv (Some firstSecretConfig) ∅
  ∧ (AWSClient.getAWSClient emptyEnv (Some secondSecretConfig)
       (AWSClient.resetAWSClient
          (AWSClient.getAWSClient emptyEnv (Some firstSecretConfig) ∅).2)).1
    = AWSClient.AWSClientService emptyEnv (Some secondSecretConfig).
Proof.
  apply (getAWSClient_memoized emptyEnv emptyEnv (Some firstSecretConfig)
           (Some secondSecretConfig) ∅).
  reflexivity.
Defined.

(** The second configuration names another secret and is served the
    service built with the first one. *)
Example getAWSClient_ignores_new_secret :
  AWSClient.clientConfig_credentials
    (AWSClient.getAWSClient emptyEnv (Some secondSecretConfig)
       (AWSClient.getAWSClient emptyEnv (Some firstSecretConfig) ∅).2).1
  = Some {| AWSClient.credentials_accessKeyId := "key1";
            AWSClient.credentials_secretAccessKey := "first-secret" |}.
Proof. by vm_compute. Qed.

(** X24: the credentials handed to the EC2 client are never mixed: they
    are the access key id and the secret of the configuration when both
    are non-empty there, else the two variables of the environment when
    both are non-empty there, else absent; the region is the one of the
    configuration, else AWS_REGION, else us-east-1. *)
Theorem AWSClientService_credentials (env : AWSClient.Env)
    (config : option AWSClient.AWSClientConfig) :
  let fromConfig :=
    truthy (config ≫= AWSClient.accessKeyId)
    && truthy (config ≫= AWSClient.secretAccessKey) in
  let fromEnv :=
    truthy (AWSClient.AWS_ACCESS_KEY_ID env)
    && truthy (AWSClient.AWS_SECRET_ACCESS_KEY env) in
  match AWSClient.clientConfig_credentials
          (AWSClient.AWSClientService env config) with
  | Some credentials =>
      (fromConfig = true
       ∧ config ≫= AWSClient.accessKeyId
         = Some (AWSClient.credentials_accessKeyId credentials)
       ∧ config ≫= AWSClient.secretAccessKey
         = Some (AWSClient.credentials_secretAccessKey credentials))
      ∨ (fromConfig = false
         ∧ fromEnv = true
         ∧ AWSClient.AWS_ACCESS_KEY_ID env
           = Some (AWSClient.credentials_accessKeyId credentials)
         ∧ AWSClient.AWS_SECRET_ACCESS_KEY env
           = Some (AWSClient.credentials_secretAccessKey credentials))
  | None => fromConfig = false ∧ fromEnv = false
  end
  ∧ AWSClient.clientConfig_region (AWSClient.AWSClientService env config)
    = match config ≫= AWSClient.region, AWSClient.AWS_REGION env with
      | Some region, _ => region
      | None, Some region => region
      | None, None => "us-east-1"
      end.
Proof.
  simpl. split.
  - unfold AWSClient.AWSClientService. simpl.
    unfold truthy.
    destruct (config ≫= AWSClient.accessKeyId) as [keyId|],
      (config ≫= AWSClient.secretAccessKey) as [secret|];
      destruct (AWSClient.AWS_ACCESS_KEY_ID env) as [envKeyId|],
        (AWSClient.AWS_SECRET_ACCESS_KEY env) as [envSecret|];
      try destruct (bool_decide (keyId = ""));
      try destruct (bool_decide (secret = ""));
      try destruct (bool_decide (envKeyId = ""));
      try destruct (bool_decide (envSecret = ""));
      simpl; auto 10.
  - unfold AWSClient.AWSClientService, AWSClient.orElse. simpl.
    by destruct (config ≫= AWSClient.region), (AWSClient.AWS_REGION env).
Qed.

(** ** Output of the analyze_security_groups tool *)

Lemma countSeverity_zero_iff (s : Severity) (findings : list SecurityFinding.t) :
  countSeverity s findings = 0%nat
  ↔ ∀ f, f ∈ findings → SecurityFinding.severity f ≠ s.
Proof.
  unfold countSeverity.
  induction findings as [|f findings IH]; simpl.
  - split; [|done]. intros _ f Hf. by apply elem_of_nil in Hf.
  - case_bool_decide as Hs; simpl.
    + split; [done|]. intros Hall. destruct (Hall f); [left|done].
    + rewrite IH. split.
      * intros Hall g [->|Hg]%elem_of_cons; [done|by apply Hall].
      * intros Hall g Hg. apply Hall. by right.
Qed.

(** X25: the recommendations of the tool always end with its three
    general lines; nothing precedes them exactly when every finding is
    LOW, and when there is a HIGH finding the first line gives the number
    of HIGH findings. *)
Theorem SecurityGroupTool_generateRecommendations_shape
    (findings : list SecurityFinding.t) :
  ∃ front,
    SecurityGroupTool.generateRecommendations findings
    = front
      ++ [ "Regular security group audits should be performed";
           "Consider using AWS Config for continuous compliance monitoring";
           "Implement Infrastructure as Code (IaC) for consistent security group management" ]
    ∧ (front = []
       ↔ ∀ f, f ∈ findings → SecurityFinding.severity f = LOW)
    ∧ ((∃ f, f ∈ findings ∧ SecurityFinding.severity f = HIGH) →
       head front
       = Some ("Address " +:+ pretty (countSeverity HIGH findings)
               +:+ " HIGH severity findings immediately")).
Proof.
  unfold SecurityGroupTool.generateRecommendations.
  pose proof (countSeverity_zero_iff HIGH findings) as Hhigh.
  pose proof (countSeverity_zero_iff MEDIUM findings) as Hmedium.
  eexists. split; [reflexivity|].
  destruct (countSeverity HIGH findings) as [|h] eqn:Hh,
    (countSeverity MEDIUM findings) as [|m] eqn:Hm; simpl.
  - split.
    + split; [|done]. intros _ f Hf.
      pose proof (proj1 Hhigh eq_refl f Hf). pose proof (proj1 Hmedium eq_refl f Hf).
      by destruct (SecurityFinding.severity f).
    + intros (f & Hf & Hs). by destruct (proj1 Hhigh eq_refl f Hf).
  - split; [|intros (f & Hf & Hs); by destruct (proj1 Hhigh eq_refl f Hf)].
    split; [done|]. intros Hlow. exfalso.
    assert (S m = 0)%nat; [|done]. apply Hmedium. intros f Hf.
    by rewrite (Hlow f Hf).
  - split; [|done]. split; [done|]. intros Hlow. exfalso.
    assert (S h = 0)%nat; [|done]. apply Hhigh. intros f Hf.
    by rewrite (Hlow f Hf).
  - split; [|done]. split; [done|]. intros Hlow. exfalso.
    assert (S h = 0)%nat; [|done]. apply Hhigh. intros f Hf.
    by rewrite (Hlow f Hf).
Qed.

(** X26: what a successful run of the tool returns is consistent: the
    risk distribution repeats the three counts of the summary, the counts
    add up to the number of findings listed, the recommendations are the
    ones generated from those findings, the region is the one of the
    input when it names one and the client's otherwise, and the
    timestamp is read after the analysis. *)
Theorem execute_output_consistent {W}
    (issueMessage : SecurityGroupTool.ZodIssue → string)
    (zodErrorMessage : list SecurityGroupTool.ZodIssue → string)
    (ec2Client : EC2Client W) (getRegion : string)
    (rules : list SecurityRule.t) (toISOString_now : W → string)
    (properties : list (string * JsValue)) (w w' : W)
    (output : SecurityGroupTool.SecurityGroupToolOutput) :
  SecurityGroupTool.execute issueMessage zodErrorMessage ec2Client getRegion
    rules toISOString_now (JsObject properties) w = (Returns output, w') →
  let s := SecurityGroupTool.summary output in
  SecurityGroupTool.riskDistribution_high s
  = SecurityGroupTool.summary_highRiskFindings s
  ∧ SecurityGroupTool.riskDistribution_medium s
    = SecurityGroupTool.summary_mediumRiskFindings s
  ∧ SecurityGroupTool.riskDistribution_low s
    = SecurityGroupTool.summary_lowRiskFindings s
  ∧ (SecurityGroupTool.riskDistribution_high s
     + SecurityGroupTool.riskDistribution_medium s
     + SecurityGroupTool.riskDistribution_low s
     = length (SecurityGroupTool.findings output))%nat
  ∧ SecurityGroupTool.recommendations output
    = SecurityGroupTool.generateRecommendations
        (SecurityGroupTool.findings output)
  ∧ SecurityGroupTool.output_region output
    = match getProperty "region" properties with
      | JsString region => region
      | _ => getRegion
      end
  ∧ SecurityGroupTool.timestamp output = toISOString_now w'
  ∧ SecurityGroupTool.analysisType output = "security-group".
Proof.
  unfold SecurityGroupTool.execute,
    SecurityGroupTool.SecurityGroupAnalysisSchema_parse,
    SecurityGroupTool.new_Date_toISOString.
  unfold_async.
  destruct (SecurityGroupTool.parseOptionalString _) as [i1 region] eqn:Hregion,
    (SecurityGroupTool.parseOptionalStringArray _) as [i2 groupIds],
    (SecurityGroupTool.parseBooleanDefaultTrue _) as [i3 includeUnused].
  destruct ((i1 ++ i2) ++ i3) as [|issue issues]; [|done]. simpl.
  destruct (analyze rules ec2Client groupIds w) as [[result|e] w1] eqn:Hrun;
    [|by destruct e].
  intros [= <- <-]. simpl.
  revert Hrun. unfold analyze. unfold_async.
  destruct (describeSecurityGroups ec2Client groupIds w) as [[response|e] w2];
    [|done].
  destruct (findUnusedSecurityGroups rules ec2Client _ w2)
    as [[unusedFindings|e] w3]; [|done].
  intros [= <- <-]. simpl.
  split_and!; try done.
  - apply countSeverity_partition.
  - destruct (getProperty "region" properties); by simplify_eq/=.
Qed.

Lemma execute_output_consistent_witness :
  ∃ output,
    SecurityGroupTool.execute testIssueMessage testZodErrorMessage mockEC2Client
      "us-east-1" mockRules testClock
      (JsObject [("region", JsString "eu-west-1")]) orphanWorld
    = (Returns output, [])
    ∧ SecurityGroupTool.output_region output = "eu-west-1"
    ∧ (SecurityGroupTool.riskDistribution_high
         (SecurityGroupTool.summary output)
       + SecurityGroupTool.riskDistribution_medium
           (SecurityGroupTool.summary output)
       + SecurityGroupTool.riskDistribution_low
           (SecurityGroupTool.summary output)
       = length (SecurityGroupTool.findings output))%nat.
Proof.
  eexists. split; [reflexivity|].
  match goal with
  | |- SecurityGroupTool.output_region ?o = _ ∧ _ =>
      pose proof (execute_output_consistent testIssueMessage
                    testZodErrorMessage mockEC2Client "us-east-1" mockRules
                    testClock [("region", JsString "eu-west-1")]
                    orphanWorld [] o eq_refl)
        as (_ & _ & _ & Hsum & _ & Hregion & _)
  end.
  split; [exact Hregion | exact Hsum].
Defined.

Lemma SecurityGroupTool_generateRecommendations_shape_witness :
  ∃ front,
    SecurityGroupTool.generateRecommendations [sshFinding]
    = front
      ++ [ "Regular security group audits should be performed";
           "Consider using AWS Config for continuous compliance monitoring";
           "Implement Infrastructure as Code (IaC) for consistent security group management" ]
    ∧ head front
      = Some ("Address " +:+ pretty (countSeverity HIGH [sshFinding])
              +:+ " HIGH severity findings immediately").
Proof.
  destruct (SecurityGroupTool_generateRecommendations_shape [sshFinding])
    as (front & Heq & _ & Hhead).
  exists front. split; [exact Heq|].
  apply Hhead. exists sshFinding. split; [left | reflexivity].
Defined.

(** ** Catalog filters and the groups named by findings *)

(** X27: [getRulesBySeverity] splits the catalog: the rules returned for
    HIGH, MEDIUM and LOW together are the catalog, each rule once, and
    every rule returned for a severity carries it. *)
Theorem getRulesBySeverity_partition (rules : list SecurityRule.t) :
  getRulesBySeverity rules HIGH ++ getRulesBySeverity rules MEDIUM
    ++ getRulesBySeverity rules LOW ≡ₚ rules
  ∧ ∀ severity rule,
      rule ∈ getRulesBySeverity rules severity
      ↔ rule ∈ rules ∧ SecurityRule.severity rule = severity.
Proof.
  split.
  - unfold getRulesBySeverity.
    induction rules as [|rule rules IH]; simpl; [done|].
    destruct (SecurityRule.severity rule); simpl.
    + by rewrite IH.
    + rewrite <- Permutation_middle. by rewrite IH.
    + rewrite app_assoc, <- Permutation_middle, <- app_assoc. by rewrite IH.
  - intros severity rule. unfold getRulesBySeverity.
    rewrite !list_elem_of_In, filter_In, bool_decide_eq_true. done.
Qed.

Lemma analyzeSecurityGroup_names_group rules sg f :
  f ∈ analyzeSecurityGroup rules sg →
  SecurityFinding.securityGroupId f
  = default "unknown" (SecurityGroup.GroupId sg)
  ∧ SecurityFinding.securityGroupName f
    = default "unknown" (SecurityGroup.GroupName sg).
Proof.
  unfold analyzeSecurityGroup.
  destruct (SecurityGroup.IpPermissions sg) as [permissions|];
    [|by intros ?%elem_of_nil].
  rewrite foldl_analyzePermission. simpl.
  intros (permission & Hf & _)%list_elem_of_bind.
  rewrite !elem_of_app in Hf. destruct Hf as [Hf|[Hf|Hf]].
  - unfold checkDangerousPorts in Hf.
    destruct (negb (ipv4Public permission) && negb (ipv6Public permission));
      [by apply elem_of_nil in Hf|].
    apply foldl_dangerousPortStep_elem_of in Hf
      as (? & ? & ? & ? & _ & _ & _ & _ & _ & ->).
    by split.
  - unfold checkWidePortRanges in Hf.
    destruct (FromPort permission) as [fromPort|];
      [|by apply elem_of_nil in Hf].
    destruct (ToPort permission) as [toPort|]; [|by apply elem_of_nil in Hf].
    destruct (PORT_RANGE_THRESHOLD <? toPort - fromPort);
      [|by apply elem_of_nil in Hf].
    destruct (getRuleById rules "sg-wide-port-range");
      [|by apply elem_of_nil in Hf].
    apply list_elem_of_singleton in Hf as ->. by split.
  - unfold checkAllTrafficRules in Hf.
    destruct (bool_decide (IpProtocol permission = Some "-1"));
      [|by apply elem_of_nil in Hf].
    destruct (ipv4Public permission || ipv6Public permission);
      [|by apply elem_of_nil in Hf].
    destruct (getRuleById rules "sg-all-traffic");
      [|by apply elem_of_nil in Hf].
    apply list_elem_of_singleton in Hf as ->. by split.
Qed.

Lemma foldl_unusedStep_names_group used rule (groups : list SecurityGroup.t) f :
  f ∈ foldl (unusedStep used rule) [] groups →
  ∃ sg, sg ∈ groups
        ∧ SecurityFinding.securityGroupId f
          = default "unknown" (SecurityGroup.GroupId sg)
        ∧ SecurityFinding.securityGroupName f
          = default "unknown" (SecurityGroup.GroupName sg).
Proof.
  induction groups as [|sg groups IH]; simpl; [by intros ?%elem_of_nil|].
  rewrite foldl_unusedStep. intros [Hf|Hf]%elem_of_app.
  - exists sg. split; [left|]. unfold unusedStep in Hf.
    destruct (SecurityGroup.GroupId sg) as [groupId|];
      [|by apply elem_of_nil in Hf].
    destruct (truthy (Some groupId) && _ && _); [|by apply elem_of_nil in Hf].
    apply list_elem_of_singleton in Hf as ->. by split.
  - destruct (IH Hf) as (g & Hg & Hid). exists g.
    split; [apply elem_of_cons; by right|done].
Qed.

(** X28: every finding of a completed analysis names one of the groups
    the service returned: its securityGroupId and securityGroupName are
    the id and the name of that group, "unknown" standing for a missing
    one. *)
Theorem analyze_findings_name_fetched_groups {W} rules
    (ec2Client : EC2Client W) groupIds (w w' : W) result :
  analyze rules ec2Client groupIds w = (Returns result, w') →
  ∃ response w1,
    describeSecurityGroups ec2Client groupIds w = (Returns response, w1)
    ∧ ∀ f, f ∈ SecurityGroupAnalysisResult.findings result →
        ∃ sg,
          sg ∈ default [] (SecurityGroups response)
          ∧ SecurityFinding.securityGroupId f
            = default "unknown" (SecurityGroup.GroupId sg)
          ∧ SecurityFinding.securityGroupName f
            = default "unknown" (SecurityGroup.GroupName sg).
Proof.
  intros Hrun.
  apply analyze_findings in Hrun
    as (response & w1 & unusedFindings & Hsg & Hunused & ->).
  exists response, w1. split; [done|].
  intros f [Hf|Hf]%elem_of_app.
  - apply list_elem_of_bind in Hf as (sg & Hf & Hin).
    exists sg. split; [done|]. by eapply analyzeSecurityGroup_names_group.
  - revert Hunused. unfold findUnusedSecurityGroups. unfold_async.
    destruct (describeInstances ec2Client w1) as [[instancesResponse|e] w2];
      [|done].
    intros [= <- <-].
    destruct (getRuleById rules "sg-unused") as [rule|];
      [|by apply elem_of_nil in Hf].
    by eapply foldl_unusedStep_names_group.
Qed.

Lemma analyze_findings_name_fetched_groups_witness :
  ∃ response w1,
    describeSecurityGroups mockEC2Client None orphanWorld
    = (Returns response, w1)
    ∧ ∀ f,
        f ∈ [ {|
            SecurityFinding.securityGroupId := "sg-unused";
            SecurityFinding.securityGroupName := "unused-sg";
            SecurityFinding.ruleId := "sg-unused";
            SecurityFinding.severity := LOW;
            SecurityFinding.description := "Security group is not attached";
            SecurityFinding.recommendation := "Remove unused";
            SecurityFinding.affectedRule := None |} ] →
        ∃ sg,
          sg ∈ default [] (SecurityGroups response)
          ∧ SecurityFinding.securityGroupId f
            = default "unknown" (SecurityGroup.GroupId sg)
          ∧ SecurityFinding.securityGroupName f
            = default "unknown" (SecurityGroup.GroupName sg).
Proof.
  apply (analyze_findings_name_fetched_groups mockRules mockEC2Client None
           orphanWorld []
           {| SecurityGroupAnalysisResult.summary :=
                {| totalGroups := 1; highRiskFindings := 0;
                   mediumRiskFindings := 0; lowRiskFindings := 1 |};
              SecurityGroupAnalysisResult.findings := [ {|
                SecurityFinding.securityGroupId := "sg-unused";
                SecurityFinding.securityGroupName := "unused-sg";
                SecurityFinding.ruleId := "sg-unused";
                SecurityFinding.severity := LOW;
                SecurityFinding.description := "Security group is not attached";
                SecurityFinding.recommendation := "Remove unused";
                SecurityFinding.affectedRule := None |} ] |}).
  reflexivity.
Defined.
